(** * Group Chat API: the request handlers and the JSON store of main.py

    The module keeps three process-wide dictionaries ([users_db], [orgs_db],
    [groups_db]) and rewrites a whole JSON file under [data/] after every
    mutation.  The handlers are embedded as state-passing functions over a
    [World] made of the three dictionaries and the [data/] directory; an
    [HTTPException] raised by a handler keeps the world as it was when the
    exception was raised. *)

From Stdlib Require Import QArith Ascii String.
From stdpp Require Import base gmap strings list.

Local Open Scope string_scope.
Local Open Scope nat_scope.

(** ** Data models (the pydantic classes) *)

Module User.
Record t := mk
  { id : string; username : string; email : string; org_ids : list string }.
(** [user.dict()] has the same four keys. *)
Definition dict (u : t) : t := u.
End User.

Module Organization.
Record t := mk { id : string; name : string; description : string }.
Definition dict (o : t) : t := o.
End Organization.

Module Message.
Record t := mk
  { id : string; content : string; user_id : string; timestamp : string;
    likes : list string; dislikes : list string }.
End Message.

(** A message as it lives in [groups_db]: the dictionary made by
    [Message.dict()], to which [get_messages] may add the key ["color"]. *)
Module MessageDict.
Record t := mk
  { id : string; content : string; user_id : string; timestamp : string;
    likes : list string; dislikes : list string; color : option string }.

Definition set_likes (l : list string) (m : t) : t :=
  mk (id m) (content m) (user_id m) (timestamp m) l (dislikes m) (color m).
Definition set_dislikes (l : list string) (m : t) : t :=
  mk (id m) (content m) (user_id m) (timestamp m) (likes m) l (color m).
Definition set_color (c : string) (m : t) : t :=
  mk (id m) (content m) (user_id m) (timestamp m) (likes m) (dislikes m)
     (Some c).
End MessageDict.

Module Group.
Record t := mk
  { id : string; name : string; description : string; org_id : string;
    members : list string; messages : list Message.t }.
End Group.

Module GroupDict.
Record t := mk
  { id : string; name : string; description : string; org_id : string;
    members : list string; messages : list MessageDict.t }.

Definition set_members (l : list string) (g : t) : t :=
  mk (id g) (name g) (description g) (org_id g) l (messages g).
Definition set_messages (l : list MessageDict.t) (g : t) : t :=
  mk (id g) (name g) (description g) (org_id g) (members g) l.
End GroupDict.

(** [Message(...).dict()] and [group.dict()]: pydantic ignores keys that
    are not fields of the model, so a fresh dictionary has no ["color"]. *)
Definition Message_dict (m : Message.t) : MessageDict.t :=
  MessageDict.mk (Message.id m) (Message.content m) (Message.user_id m)
    (Message.timestamp m) (Message.likes m) (Message.dislikes m) None.

Definition Group_dict (g : Group.t) : GroupDict.t :=
  GroupDict.mk (Group.id g) (Group.name g) (Group.description g)
    (Group.org_id g) (Group.members g) (Message_dict <$> Group.messages g).

(** ** JSON values and their text *)

(** The values of the [json] library.  A string is the list of its code
    points; a number is kept as the numeral that denotes it.  The three
    dictionaries of the module hold strings, lists and dictionaries only;
    the other values can come out of a file. *)
#[warnings="-register-all"]
Inductive json : Type :=
  | JNull
  | JBool (b : bool)
  | JNum (numeral : string)
  | JText (t : list N)
  | JList (l : list json)
  | JDict (d : gmap (list N) json).

(** The code points of a string of the program (one character of the
    embedding is one code point, up to U+00FF). *)
Fixpoint text_of_string (s : string) : list N :=
  match s with
  | EmptyString => []
  | String c s' => N_of_ascii c :: text_of_string s'
  end.

Definition JStr (s : string) : json := JText (text_of_string s).

(** A dictionary given by its items. *)
Definition json_dict (items : list (string * json)) : json :=
  JDict (list_to_map (prod_map text_of_string id <$> items)).

Definition json_strs (l : list string) : json := JList (JStr <$> l).

Definition json_of_user (u : User.t) : json :=
  json_dict
    [("id", JStr (User.id u)); ("username", JStr (User.username u));
     ("email", JStr (User.email u)); ("org_ids", json_strs (User.org_ids u))].

Definition json_of_org (o : Organization.t) : json :=
  json_dict
    [("id", JStr (Organization.id o)); ("name", JStr (Organization.name o));
     ("description", JStr (Organization.description o))].

Definition json_of_message (m : MessageDict.t) : json :=
  json_dict
    ([("id", JStr (MessageDict.id m)); ("content", JStr (MessageDict.content m));
      ("user_id", JStr (MessageDict.user_id m));
      ("timestamp", JStr (MessageDict.timestamp m));
      ("likes", json_strs (MessageDict.likes m));
      ("dislikes", json_strs (MessageDict.dislikes m))]
     ++ match MessageDict.color m with
        | Some c => [("color", JStr c)]
        | None => []
        end).

Definition json_of_group (g : GroupDict.t) : json :=
  json_dict
    [("id", JStr (GroupDict.id g)); ("name", JStr (GroupDict.name g));
     ("description", JStr (GroupDict.description g));
     ("org_id", JStr (GroupDict.org_id g));
     ("members", json_strs (GroupDict.members g));
     ("messages", JList (json_of_message <$> GroupDict.messages g))].

Definition json_of_db {A} (enc : A -> json) (db : gmap string A) : json :=
  json_dict (prod_map id enc <$> map_to_list db).

(** *** [json.dump(data, f, indent=2)]

    The text has the items of a list or dictionary one per line, two
    spaces deeper per level, and [ensure_ascii] escapes in the strings.
    The items of a dictionary come in the order of [map_to_list]; the order
    makes no difference to the dictionary that is read back. *)

Definition quote : ascii := "034"%char.
Definition newline : ascii := "010"%char.

Definition hex_digit (n : N) : ascii :=
  match n with
  | 0 => "0" | 1 => "1" | 2 => "2" | 3 => "3" | 4 => "4" | 5 => "5"
  | 6 => "6" | 7 => "7" | 8 => "8" | 9 => "9" | 10 => "a" | 11 => "b"
  | 12 => "c" | 13 => "d" | 14 => "e" | _ => "f"
  end%N%char.

(** [\uXXXX], four lower-case hexadecimal digits. *)
Definition u_escape (n : N) : string :=
  String "\" (String "u"
    (String (hex_digit (n / 4096 mod 16)) (String (hex_digit (n / 256 mod 16))
      (String (hex_digit (n / 16 mod 16)) (String (hex_digit (n mod 16)) ""))))).

(** One character of a string: the short escapes, the printable ASCII
    characters as they are, everything else as [\uXXXX] (a pair of
    surrogates beyond U+FFFF). *)
Definition escape (c : N) : string :=
  if (c =? 34)%N then String "\" (String quote "")
  else if (c =? 92)%N then "\\"
  else if (c =? 10)%N then "\n"
  else if (c =? 13)%N then "\r"
  else if (c =? 9)%N then "\t"
  else if (c =? 8)%N then "\b"
  else if (c =? 12)%N then "\f"
  else if ((32 <=? c) && (c <=? 126))%N then String (ascii_of_N c) ""
  else if (c <? 65536)%N then u_escape c
  else u_escape (55296 + (c - 65536) / 1024)
       ++ u_escape (56320 + (c - 65536) mod 1024).

Fixpoint escape_all (t : list N) : string :=
  match t with
  | [] => ""
  | c :: t' => escape c ++ escape_all t'
  end.

Definition dumps_text (t : list N) : string :=
  String quote (escape_all t ++ String quote "").

Fixpoint indent (level : nat) : string :=
  match level with
  | 0 => ""
  | S n => "  " ++ indent n
  end.

(** Items separated by a comma and a new line at the given level. *)
Fixpoint lines (level : nat) (items : list string) : string :=
  match items with
  | [] => ""
  | [item] => item
  | item :: rest =>
      item ++ String "," (String newline (indent level ++ lines level rest))
  end.

(** The items one level deeper between the two brackets; the brackets
    alone when there is no item. *)
Definition block (opening closing : ascii) (level : nat) (items : list string)
  : string :=
  match items with
  | [] => String opening (String closing "")
  | _ =>
      String opening (String newline (indent (S level) ++ lines (S level) items
        ++ String newline (indent level ++ String closing "")))
  end.

Fixpoint dumps (level : nat) (j : json) : string :=
  match j with
  | JNull => "null"
  | JBool true => "true"
  | JBool false => "false"
  | JNum numeral => numeral
  | JText t => dumps_text t
  | JList l => block "[" "]" level (dumps (S level) <$> l)
  | JDict d =>
      block "{" "}" level
        ((fun member => dumps_text member.1 ++ ": " ++ member.2)
           <$> map_to_list (dumps (S level) <$> d))
  end.

Definition json_dumps (j : json) : string := dumps 0 j.

(** *** [json.load(f)]

    The reader goes through the text one character at a time.  It keeps the
    containers it is inside of, innermost first, and what it expects
    next. *)

Inductive frame : Type :=
  | FList (items : list json)
  | FDict (members : gmap (list N) json)
  | FMember (members : gmap (list N) json) (key : list N).

Inductive numstate : Type :=
  | NMinus | NZero | NInt | NPoint | NFrac | NExp | NExpSign | NExpInt.

Inductive mode : Type :=
  | MValue (may_close : bool)
  | MKey (may_close : bool)
  | MColon
  | MAfter
  | MString (key : bool) (acc : list N)
  | MEscape (key : bool) (acc : list N)
  | MHex (key : bool) (acc : list N) (count : nat) (value : N)
  | MNumber (st : numstate) (acc : string)
  | MWord (rest : string) (value : json).

Inductive reader : Type :=
  | Failed
  | Finished (value : json)
  | Reading (stack : list frame) (m : mode).

Definition is_space (c : ascii) : bool :=
  let n := N_of_ascii c in ((n =? 32) || (n =? 9) || (n =? 10) || (n =? 13))%N.

Definition is_digit (c : ascii) : bool :=
  let n := N_of_ascii c in ((48 <=? n) && (n <=? 57))%N.

Definition hex_value (c : ascii) : option N :=
  let n := N_of_ascii c in
  if ((48 <=? n) && (n <=? 57))%N then Some (n - 48)%N
  else if ((97 <=? n) && (n <=? 102))%N then Some (n - 87)%N
  else if ((65 <=? n) && (n <=? 70))%N then Some (n - 55)%N
  else None.

(** A value is complete: it goes into the container around it (in a
    dictionary the value of a key replaces an earlier value of that key). *)
Definition push_value (v : json) (stack : list frame) : reader :=
  match stack with
  | [] => Finished v
  | FList items :: stack => Reading (FList (v :: items) :: stack) MAfter
  | FMember members key :: stack =>
      Reading (FDict (<[key := v]> members) :: stack) MAfter
  | FDict _ :: _ => Failed
  end.

Definition close_list (stack : list frame) : reader :=
  match stack with
  | FList items :: stack => push_value (JList (reverse items)) stack
  | _ => Failed
  end.

Definition close_dict (stack : list frame) : reader :=
  match stack with
  | FDict members :: stack => push_value (JDict members) stack
  | _ => Failed
  end.

Definition end_string (key : bool) (acc : list N) (stack : list frame)
  : reader :=
  if key then
    match stack with
    | FDict members :: stack =>
        Reading (FMember members (reverse acc) :: stack) MColon
    | _ => Failed
    end
  else push_value (JText (reverse acc)) stack.

(** A [\uXXXX] that is a low surrogate joins the high surrogate just before
    it. *)
Definition add_unit (v : N) (acc : list N) : list N :=
  if ((56320 <=? v) && (v <=? 57343))%N then
    match acc with
    | h :: rest =>
        if ((55296 <=? h) && (h <=? 56319))%N
        then (65536 + (h - 55296) * 1024 + (v - 56320))%N :: rest
        else v :: acc
    | [] => [v]
    end
  else v :: acc.

Definition start_value (stack : list frame) (c : ascii) : reader :=
  if Ascii.eqb c quote then Reading stack (MString false [])
  else if Ascii.eqb c "[" then Reading (FList [] :: stack) (MValue true)
  else if Ascii.eqb c "{" then Reading (FDict ∅ :: stack) (MKey true)
  else if Ascii.eqb c "-" then Reading stack (MNumber NMinus "-")
  else if Ascii.eqb c "0" then Reading stack (MNumber NZero "0")
  else if is_digit c then Reading stack (MNumber NInt (String c ""))
  else if Ascii.eqb c "t" then Reading stack (MWord "rue" (JBool true))
  else if Ascii.eqb c "f" then Reading stack (MWord "alse" (JBool false))
  else if Ascii.eqb c "n" then Reading stack (MWord "ull" JNull)
  else if Ascii.eqb c "N" then Reading stack (MWord "aN" (JNum "NaN"))
  else if Ascii.eqb c "I" then Reading stack (MWord "nfinity" (JNum "Infinity"))
  else Failed.

(** After a value: a comma, the closing bracket, or nothing but white space
    once the whole value is read. *)
Definition read_after (s : reader) (c : ascii) : reader :=
  match s with
  | Finished v => if is_space c then Finished v else Failed
  | Reading stack MAfter =>
      if is_space c then s
      else if Ascii.eqb c "," then
        match stack with
        | FList _ :: _ => Reading stack (MValue false)
        | FDict _ :: _ => Reading stack (MKey false)
        | _ => Failed
        end
      else if Ascii.eqb c "]" then close_list stack
      else if Ascii.eqb c "}" then close_dict stack
      else Failed
  | _ => Failed
  end.

Definition number_done (st : numstate) : bool :=
  match st with
  | NZero | NInt | NFrac | NExpInt => true
  | _ => false
  end.

(** Inside a numeral; the character that ends it is read as what follows a
    value. *)
Definition read_number (stack : list frame) (st : numstate) (acc : string)
    (c : ascii) : reader :=
  let more st' := Reading stack (MNumber st' (acc ++ String c "")) in
  let done :=
    if number_done st then read_after (push_value (JNum acc) stack) c
    else Failed in
  let exponent := Ascii.eqb c "e" || Ascii.eqb c "E" in
  match st with
  | NMinus =>
      if Ascii.eqb c "0" then more NZero
      else if is_digit c then more NInt
      else if Ascii.eqb c "I"
      then Reading stack (MWord "nfinity" (JNum "-Infinity"))
      else Failed
  | NZero =>
      if Ascii.eqb c "." then more NPoint
      else if exponent then more NExp else done
  | NInt =>
      if is_digit c then more NInt
      else if Ascii.eqb c "." then more NPoint
      else if exponent then more NExp else done
  | NPoint => if is_digit c then more NFrac else Failed
  | NFrac =>
      if is_digit c then more NFrac
      else if exponent then more NExp else done
  | NExp =>
      if Ascii.eqb c "+" || Ascii.eqb c "-" then more NExpSign
      else if is_digit c then more NExpInt else Failed
  | NExpSign => if is_digit c then more NExpInt else Failed
  | NExpInt => if is_digit c then more NExpInt else done
  end.

Definition read_char (s : reader) (c : ascii) : reader :=
  match s with
  | Failed => Failed
  | Finished _ => read_after s c
  | Reading stack m =>
      match m with
      | MValue may_close =>
          if is_space c then s
          else if may_close && Ascii.eqb c "]" then close_list stack
          else start_value stack c
      | MKey may_close =>
          if is_space c then s
          else if Ascii.eqb c quote then Reading stack (MString true [])
          else if may_close && Ascii.eqb c "}" then close_dict stack
          else Failed
      | MColon =>
          if is_space c then s
          else if Ascii.eqb c ":" then Reading stack (MValue false)
          else Failed
      | MAfter => read_after s c
      | MString key acc =>
          if Ascii.eqb c quote then end_string key acc stack
          else if Ascii.eqb c "\" then Reading stack (MEscape key acc)
          else if (N_of_ascii c <? 32)%N then Failed
          else Reading stack (MString key (N_of_ascii c :: acc))
      | MEscape key acc =>
          let char n := Reading stack (MString key (n :: acc)) in
          if Ascii.eqb c quote then char 34%N
          else if Ascii.eqb c "\" then char 92%N
          else if Ascii.eqb c "/" then char 47%N
          else if Ascii.eqb c "b" then char 8%N
          else if Ascii.eqb c "f" then char 12%N
          else if Ascii.eqb c "n" then char 10%N
          else if Ascii.eqb c "r" then char 13%N
          else if Ascii.eqb c "t" then char 9%N
          else if Ascii.eqb c "u" then Reading stack (MHex key acc 0 0)
          else Failed
      | MHex key acc count value =>
          match hex_value c with
          | None => Failed
          | Some d =>
              let value := (value * 16 + d)%N in
              if decide (count = 3)
              then Reading stack (MString key (add_unit value acc))
              else Reading stack (MHex key acc (S count) value)
          end
      | MNumber st acc => read_number stack st acc c
      | MWord rest value =>
          match rest with
          | String c' rest' =>
              if Ascii.eqb c c' then
                match rest' with
                | EmptyString => push_value value stack
                | _ => Reading stack (MWord rest' value)
                end
              else Failed
          | EmptyString => Failed
          end
      end
  end.

Fixpoint read_text (s : string) (st : reader) : reader :=
  match s with
  | EmptyString => st
  | String c s' => read_text s' (read_char st c)
  end.

(** At the end of the text: the value, if one is complete and nothing is
    open. *)
Definition finish (s : reader) : option json :=
  match s with
  | Finished v => Some v
  | Reading [] (MNumber st acc) =>
      if number_done st then Some (JNum acc) else None
  | _ => None
  end.

(** [None] stands for the [JSONDecodeError]. *)
Definition json_loads (s : string) : option json :=
  finish (read_text s (Reading [] (MValue false))).

(** ** The [data] directory *)

(** What there is under a name in [data]: a regular file with its text and
    whether the process may read it and may write it, or something that is
    not a regular file (a directory), which exists and cannot be opened. *)
Inductive file : Type :=
  | Regular (text : string) (readable writable : bool)
  | Directory.

(** What there is under the name [data] in the working directory: nothing
    (and whether the directory may be created), something that is not a
    directory, or a directory with its entries by name (and whether new
    entries may be created in it). *)
Inductive data_dir : Type :=
  | Absent (creatable : bool)
  | NotADirectory
  | Present (files : gmap string file) (creatable : bool).

(** The state of the process: the three module-level dictionaries, and the
    [data] directory. *)
Record World := mkWorld
  { users_db : gmap string User.t;
    orgs_db : gmap string Organization.t;
    groups_db : gmap string GroupDict.t;
    fs : data_dir }.

Definition set_users_db (db : gmap string User.t) (w : World) : World :=
  mkWorld db (orgs_db w) (groups_db w) (fs w).
Definition set_orgs_db (db : gmap string Organization.t) (w : World) : World :=
  mkWorld (users_db w) db (groups_db w) (fs w).
Definition set_groups_db (db : gmap string GroupDict.t) (w : World) : World :=
  mkWorld (users_db w) (orgs_db w) db (fs w).
Definition set_fs (d : data_dir) (w : World) : World :=
  mkWorld (users_db w) (orgs_db w) (groups_db w) d.

(** ** Handlers: state passing with [HTTPException] *)

Record HTTPException := mkHTTPException { status_code : nat; detail : string }.

Inductive result (A : Type) : Type :=
  | Return (a : A)
  | Raise (e : HTTPException).
Arguments Return {A} a.
Arguments Raise {A} e.

Definition handler (A : Type) : Type := World -> World * result A.

Definition ret {A} (a : A) : handler A := fun w => (w, Return a).
Definition raise {A} (code : nat) (msg : string) : handler A :=
  fun w => (w, Raise (mkHTTPException code msg)).
Definition bind {A B} (h : handler A) (k : A -> handler B) : handler B :=
  fun w => match h w with
           | (w', Return a) => k a w'
           | (w', Raise e) => (w', Raise e)
           end.
Definition read {A} (f : World -> A) : handler A := fun w => (w, Return (f w)).
Definition write (f : World -> World) : handler unit :=
  fun w => (f w, Return tt).
Definition when (b : bool) (h : handler unit) : handler unit :=
  if b then h else ret tt.

Notation "'let!' x ':=' h 'in' k" := (bind h (fun x => k))
  (at level 10, x name, h at level 100, k at level 200, only parsing).
Notation "'do!' h 'in' k" := (bind h (fun _ => k))
  (at level 10, h at level 100, k at level 200, only parsing).

(** The error classes of the interface: 400 is a conflict, 404 a missing
    entity. *)
Definition Conflict {A} (r : result A) : Prop :=
  exists msg, r = Raise (mkHTTPException 400 msg).
Definition NotFound {A} (r : result A) : Prop :=
  exists msg, r = Raise (mkHTTPException 404 msg).

(** [k in d] for a dictionary. *)
Definition has_key {A} (k : string) (d : gmap string A) : bool :=
  bool_decide (is_Some (d !! k)).

(** ** Database functions *)

(** The module calls [load_data] and [save_data] with three literal file
    names and no other. *)
Inductive filename : Type :=
  | UsersJson
  | OrganizationsJson
  | GroupsJson.

Definition file_name (f : filename) : string :=
  match f with
  | UsersJson => "users.json"
  | OrganizationsJson => "organizations.json"
  | GroupsJson => "groups.json"
  end.

(** What is at [f"data/{filename}"], if anything ([os.path.exists]). *)
Definition entry (f : filename) (d : data_dir) : option file :=
  match d with
  | Present files _ => files !! file_name f
  | _ => None
  end.

(** [open(path, "w")] followed by [json.dump]: the directory after the
    write, or [None] when [open] raises (no [data] directory, a file that
    may not be written, a directory in place of the file, a file that may
    not be created).  An existing file keeps its permissions; a new file
    may be read and written. *)
Definition write_file (f : filename) (text : string) (d : data_dir)
  : option data_dir :=
  match d with
  | Present files creatable =>
      match files !! file_name f with
      | Some (Regular _ readable true) =>
          Some (Present (<[file_name f := Regular text readable true]> files)
                        creatable)
      | Some _ => None
      | None =>
          if creatable
          then Some (Present (<[file_name f := Regular text true true]> files)
                             creatable)
          else None
      end
  | _ => None
  end.

(** [save_data] catches the exception and only prints it. *)
Definition save_data (f : filename) (data : json) : handler unit :=
  write (fun w =>
    match write_file f (json_dumps data) (fs w) with
    | Some d => set_fs d w
    | None => w
    end).

(** [os.makedirs("data", exist_ok=True)]: [None] when it raises. *)
Definition makedirs (d : data_dir) : option data_dir :=
  match d with
  | Present _ _ => Some d
  | Absent true => Some (Present ∅ true)
  | Absent false => None
  | NotADirectory => None
  end.

(** [if default_data is None: default_data = {}]; [None] is the JSON
    [null]. *)
Definition or_empty (default_data : json) : json :=
  match default_data with
  | JNull => JDict ∅
  | _ => default_data
  end.

(** Every exception inside [load_data] ends in [return default_data]: a
    file that cannot be opened or read, a text that is not JSON, a
    directory that cannot be made. *)
Definition load_data (f : filename) (default_data : json) : handler json :=
  let default_data := or_empty default_data in
  let! d := read fs in
  match entry f d with
  | Some (Regular text true _) =>
      match json_loads text with
      | Some j => ret j
      | None => ret default_data
      end
  | Some _ => ret default_data
  | None =>
      match makedirs d with
      | None => ret default_data
      | Some d' =>
          do! write (set_fs d') in
          do! save_data f default_data in
          ret default_data
      end
  end.

(** ** Module start-up *)

(** The module binds [users_db], [orgs_db] and [groups_db] to what
    [load_data] returns.  The dictionaries of [World] hold users,
    organizations and groups as the handlers store them; the functions
    below read such a dictionary off a document.  A document of another
    shape is bound by the module all the same, as a value that [World] has
    no state for. *)

Fixpoint string_of_text (t : list N) : option string :=
  match t with
  | [] => Some ""
  | c :: t' =>
      if (c <? 256)%N then String (ascii_of_N c) <$> string_of_text t'
      else None
  end.

Definition as_str (j : json) : option string :=
  match j with
  | JText t => string_of_text t
  | _ => None
  end.

Definition as_strs (j : json) : option (list string) :=
  match j with
  | JList l => mapM as_str l
  | _ => None
  end.

Definition field (k : string) (d : gmap (list N) json) : option json :=
  d !! text_of_string k.

Definition user_of_json (j : json) : option User.t :=
  match j with
  | JDict d =>
      id ← field "id" d ≫= as_str;
      username ← field "username" d ≫= as_str;
      email ← field "email" d ≫= as_str;
      org_ids ← field "org_ids" d ≫= as_strs;
      if decide (size d = 4)
      then Some (User.mk id username email org_ids)
      else None
  | _ => None
  end.

Definition org_of_json (j : json) : option Organization.t :=
  match j with
  | JDict d =>
      id ← field "id" d ≫= as_str;
      name ← field "name" d ≫= as_str;
      description ← field "description" d ≫= as_str;
      if decide (size d = 3)
      then Some (Organization.mk id name description)
      else None
  | _ => None
  end.

Definition message_of_json (j : json) : option MessageDict.t :=
  match j with
  | JDict d =>
      id ← field "id" d ≫= as_str;
      content ← field "content" d ≫= as_str;
      user_id ← field "user_id" d ≫= as_str;
      timestamp ← field "timestamp" d ≫= as_str;
      likes ← field "likes" d ≫= as_strs;
      dislikes ← field "dislikes" d ≫= as_strs;
      match field "color" d with
      | None =>
          if decide (size d = 6)
          then Some (MessageDict.mk id content user_id timestamp likes
                       dislikes None)
          else None
      | Some c =>
          color ← as_str c;
          if decide (size d = 7)
          then Some (MessageDict.mk id content user_id timestamp likes
                       dislikes (Some color))
          else None
      end
  | _ => None
  end.

Definition messages_of_json (j : json) : option (list MessageDict.t) :=
  match j with
  | JList l => mapM message_of_json l
  | _ => None
  end.

Definition group_of_json (j : json) : option GroupDict.t :=
  match j with
  | JDict d =>
      id ← field "id" d ≫= as_str;
      name ← field "name" d ≫= as_str;
      description ← field "description" d ≫= as_str;
      org_id ← field "org_id" d ≫= as_str;
      members ← field "members" d ≫= as_strs;
      messages ← field "messages" d ≫= messages_of_json;
      if decide (size d = 6)
      then Some (GroupDict.mk id name description org_id members messages)
      else None
  | _ => None
  end.

Definition db_of_member {A} (dec : json -> option A) (k : list N) (v : json)
    (acc : option (gmap string A)) : option (gmap string A) :=
  db ← acc; k' ← string_of_text k; x ← dec v; Some (<[k' := x]> db).

Definition db_of_json {A} (dec : json -> option A) (j : json)
  : option (gmap string A) :=
  match j with
  | JDict d => map_fold (db_of_member dec) (Some ∅) d
  | _ => None
  end.

(** The three [load_data] calls, each with [{}] as its default, and the
    dictionaries they give.  [None]: a document that is not a dictionary of
    users, organizations or groups. *)
Definition initialize (d : data_dir) : option World :=
  match load_data UsersJson (JDict ∅) (mkWorld ∅ ∅ ∅ d) with
  | (w1, Return users) =>
      match load_data OrganizationsJson (JDict ∅) w1 with
      | (w2, Return orgs) =>
          match load_data GroupsJson (JDict ∅) w2 with
          | (w3, Return groups) =>
              users ← db_of_json user_of_json users;
              orgs ← db_of_json org_of_json orgs;
              groups ← db_of_json group_of_json groups;
              Some (mkWorld users orgs groups (fs w3))
          | _ => None
          end
      | _ => None
      end
  | _ => None
  end.

(** ** User and organization endpoints *)

Definition create_user (user : User.t) : handler User.t :=
  let! users := read users_db in
  do! when (has_key (User.id user) users) (raise 400 "User already exists") in
  do! write (set_users_db (<[User.id user := User.dict user]> users)) in
  let! users := read users_db in
  do! save_data UsersJson (json_of_db json_of_user users) in
  ret user.

Definition get_user (user_id : string) : handler User.t :=
  let! users := read users_db in
  match users !! user_id with
  | None => raise 404 "User not found"
  | Some user => ret user
  end.

Definition create_organization (org : Organization.t)
  : handler Organization.t :=
  let! orgs := read orgs_db in
  do! when (has_key (Organization.id org) orgs)
        (raise 400 "Organization already exists") in
  do! write (set_orgs_db (<[Organization.id org := Organization.dict org]> orgs)) in
  let! orgs := read orgs_db in
  do! save_data OrganizationsJson (json_of_db json_of_org orgs) in
  ret org.

(** ** Group endpoints *)

Definition save_groups : handler unit :=
  let! groups := read groups_db in
  save_data GroupsJson (json_of_db json_of_group groups).

(** [if group_id not in groups_db: raise ...] followed by
    [groups_db[group_id]]. *)
Definition group_or_404 (group_id : string) : handler GroupDict.t :=
  let! groups := read groups_db in
  match groups !! group_id with
  | None => raise 404 "Group not found"
  | Some group => ret group
  end.

(** In-place mutation of the dictionary stored under [group_id]. *)
Definition mutate_group (group_id : string) (f : GroupDict.t -> GroupDict.t)
  : handler unit :=
  write (fun w => set_groups_db (alter f group_id (groups_db w)) w).

Definition create_group (group : Group.t) : handler Group.t :=
  let! groups := read groups_db in
  do! when (has_key (Group.id group) groups)
        (raise 400 "Group already exists") in
  do! write (set_groups_db (<[Group.id group := Group_dict group]> groups)) in
  do! save_groups in
  ret group.

Definition add_member_to_group (group_id user_id : string) : handler string :=
  let! group := group_or_404 group_id in
  let! users := read users_db in
  do! when (negb (has_key user_id users)) (raise 404 "User not found") in
  do! when (negb (bool_decide (user_id ∈ GroupDict.members group)))
        (do! mutate_group group_id
               (fun g => GroupDict.set_members (GroupDict.members g ++ [user_id]) g) in
         save_groups) in
  ret "Member added successfully".

(** [uuid] and [now] stand for the values of [str(uuid4())] and
    [datetime.now().isoformat()] drawn by this call. *)
Definition create_message (uuid now : string)
    (group_id content user_id : string) : handler MessageDict.t :=
  let! _ := group_or_404 group_id in
  let! users := read users_db in
  do! when (negb (has_key user_id users)) (raise 404 "User not found") in
  let message := Message_dict (Message.mk uuid content user_id now [] []) in
  do! mutate_group group_id
        (fun g => GroupDict.set_messages (GroupDict.messages g ++ [message]) g) in
  do! save_groups in
  ret message.

(** [list.remove(x)]: deletes the first occurrence of [x]. *)
Fixpoint list_remove (x : string) (l : list string) : list string :=
  match l with
  | [] => []
  | y :: l' => if decide (y = x) then l' else y :: list_remove x l'
  end.

(** The scan of [react_to_message]: the first message whose id is
    [message_id], with its position in the list (the dictionary found is the
    stored one, not a copy). *)
Fixpoint find_message (message_id : string) (messages : list MessageDict.t)
  : option (nat * MessageDict.t) :=
  match messages with
  | [] => None
  | msg :: rest =>
      if decide (MessageDict.id msg = message_id) then Some (0, msg)
      else prod_map S id <$> find_message message_id rest
  end.

(** The updates [react_to_message] makes to the message it found: the two
    guarded [remove] calls, then the [if]/[elif] on the reaction. *)
Definition react (user_id reaction : string) (message : MessageDict.t)
  : MessageDict.t :=
  let message :=
    if bool_decide (user_id ∈ MessageDict.likes message)
    then MessageDict.set_likes
           (list_remove user_id (MessageDict.likes message)) message
    else message in
  let message :=
    if bool_decide (user_id ∈ MessageDict.dislikes message)
    then MessageDict.set_dislikes
           (list_remove user_id (MessageDict.dislikes message)) message
    else message in
  if decide (reaction = "like")
  then MessageDict.set_likes (MessageDict.likes message ++ [user_id]) message
  else if decide (reaction = "dislike")
  then MessageDict.set_dislikes
         (MessageDict.dislikes message ++ [user_id]) message
  else message.

(** [if not message] holds only when the scan found nothing: a stored
    message is never an empty dictionary. *)
Definition react_to_message (group_id message_id user_id reaction : string)
  : handler MessageDict.t :=
  let! group := group_or_404 group_id in
  match find_message message_id (GroupDict.messages group) with
  | None => raise 404 "Message not found"
  | Some (i, message) =>
      let message := react user_id reaction message in
      do! mutate_group group_id
            (fun g => GroupDict.set_messages
                        (<[i := message]> (GroupDict.messages g)) g) in
      do! save_groups in
      ret message
  end.

(** The reaction color of one message.  [like_ratio] is the quotient of two
    list lengths, taken here as an exact rational: Python rounds the
    quotient of two integers correctly, so it equals 1 only when both are
    equal and 0 only when the numerator is 0, for any length a list can
    have. *)
Definition reaction_color (message : MessageDict.t) : string :=
  let total_reactions :=
    length (MessageDict.likes message) + length (MessageDict.dislikes message) in
  if decide (0 < total_reactions) then
    let like_ratio : Q :=
      Qmake (Z.of_nat (length (MessageDict.likes message)))
            (Pos.of_nat total_reactions) in
    if Qeq_bool like_ratio 1 then "green"
    else if Qeq_bool like_ratio 0 then "red"
    else "yellow"
  else "gray".

(** One turn of the loop of [get_messages]. *)
Definition annotate (message : MessageDict.t) : MessageDict.t :=
  MessageDict.set_color (reaction_color message) message.

(** The loop assigns [message["color"]] on the dictionaries of
    [groups_db[group_id]["messages"]] themselves, and that list is what is
    returned. *)
Definition get_messages (group_id : string) : handler (list MessageDict.t) :=
  let! group := group_or_404 group_id in
  let messages := annotate <$> GroupDict.messages group in
  do! mutate_group group_id (GroupDict.set_messages messages) in
  ret messages.

(** ** Requests and runs *)

Inductive request : Type :=
  | CreateUser (user : User.t)
  | GetUser (user_id : string)
  | CreateOrganization (org : Organization.t)
  | CreateGroup (group : Group.t)
  | AddMember (group_id user_id : string)
  | CreateMessage (uuid now group_id content user_id : string)
  | ReactToMessage (group_id message_id user_id reaction : string)
  | GetMessages (group_id : string).

(** The world after a request is served, whatever its response. *)
Definition serve (rq : request) (w : World) : World :=
  match rq with
  | CreateUser user => (create_user user w).1
  | GetUser user_id => (get_user user_id w).1
  | CreateOrganization org => (create_organization org w).1
  | CreateGroup group => (create_group group w).1
  | AddMember group_id user_id => (add_member_to_group group_id user_id w).1
  | CreateMessage uuid now group_id content user_id =>
      (create_message uuid now group_id content user_id w).1
  | ReactToMessage group_id message_id user_id reaction =>
      (react_to_message group_id message_id user_id reaction w).1
  | GetMessages group_id => (get_messages group_id w).1
  end.

Definition serve_all (rqs : list request) (w : World) : World :=
  foldl (fun w rq => serve rq w) w rqs.

(** The store at start-up when no file exists yet: three empty
    dictionaries.  The [data] directory is not there ([None]) or holds the
    given entries; the process may create it and create files in it. *)
Definition empty_store (d : option (gmap string file)) : World :=
  mkWorld ∅ ∅ ∅ match d with
                | Some files => Present files true
                | None => Absent true
                end.

(** ** Auxiliary notions used by the statements *)

(** Number of occurrences of an id in a list of ids. *)
Fixpoint occurrences (x : string) (l : list string) : nat :=
  match l with
  | [] => 0
  | y :: l' => (if decide (y = x) then 1 else 0) + occurrences x l'
  end.

(** The world after [save_data], whose only effect is on the directory. *)
Definition persist (f : filename) (data : json) (w : World) : World :=
  (save_data f data w).1.

Definition persist_groups (w : World) : World := (save_groups w).1.

(** Whether [open(path, "w")] goes through. *)
Definition accepts_write (f : filename) (d : data_dir) : bool :=
  bool_decide (is_Some (write_file f "" d)).

(** Whether the file is there and may be read. *)
Definition readable_file (f : filename) (d : data_dir) : bool :=
  match entry f d with
  | Some (Regular _ true _) => true
  | _ => false
  end.

(** Reading a JSON document: [j[k]] on a dictionary, [j[i]] on a list. *)
Definition json_key (k : string) (j : json) : option json :=
  match j with
  | JDict d => d !! text_of_string k
  | _ => None
  end.

Definition json_index (i : nat) (j : json) : option json :=
  match j with
  | JList l => l !! i
  | _ => None
  end.

(** The text of a file of the [data] directory, and the document it
    denotes, if any. *)
Definition stored_text (f : filename) (w : World) : option string :=
  match entry f (fs w) with
  | Some (Regular text _ _) => Some text
  | _ => None
  end.

Definition stored_document (f : filename) (w : World) : option json :=
  stored_text f w ≫= json_loads.

(** The document that the handlers save under each name. *)
Definition database (f : filename) (w : World) : json :=
  match f with
  | UsersJson => json_of_db json_of_user (users_db w)
  | OrganizationsJson => json_of_db json_of_org (orgs_db w)
  | GroupsJson => json_of_db json_of_group (groups_db w)
  end.

(** The file may be read and its text denotes the dictionary in memory. *)
Definition on_disk (f : filename) (w : World) : Prop :=
  readable_file f (fs w) = true /\ stored_document f w = Some (database f w).

(** Every file is there, may be read and written, and denotes the
    dictionary in memory. *)
Definition in_step (w : World) : Prop :=
  forall f, exists text,
    entry f (fs w) = Some (Regular text true true) /\
    json_loads text = Some (database f w).

(** A request other than [get_messages]. *)
Definition reads_no_messages (rq : request) : Prop :=
  match rq with
  | GetMessages _ => False
  | _ => True
  end.








(** The message that [react_to_message] would pick in the current world. *)
Definition target_message (group_id message_id : string) (w : World)
  : option MessageDict.t :=
  g ← groups_db w !! group_id;
  snd <$> find_message message_id (GroupDict.messages g).

(** One user reacting to one message several times in a row. *)
Definition react_many (group_id message_id user_id : string)
    (reactions : list string) (w : World) : World :=
  foldl (fun w reaction =>
           (react_to_message group_id message_id user_id reaction w).1)
        w reactions.

(** A request that does not bring a repeated member id in a group payload. *)
Definition members_supplied_nodup (rq : request) : Prop :=
  match rq with
  | CreateGroup group => NoDup (Group.members group)
  | _ => True
  end.

(** No group of the store lists a member twice. *)
Definition members_nodup (w : World) : Prop :=
  forall group_id group,
    groups_db w !! group_id = Some group -> NoDup (GroupDict.members group).

(** Following a path of keys and positions into a document. *)
Fixpoint json_at (path : list (string + nat)) (j : json) : option json :=
  match path with
  | [] => Some j
  | inl k :: path => json_key k j ≫= json_at path
  | inr i :: path => json_index i j ≫= json_at path
  end.

(** The color of the [i]-th message of a group, in [groups_db] and in
    [groups.json]. *)
Definition stored_color (group_id : string) (i : nat) (w : World)
  : option string :=
  g ← groups_db w !! group_id;
  m ← GroupDict.messages g !! i;
  MessageDict.color m.

Definition color_on_disk (group_id : string) (i : nat) (w : World)
  : option json :=
  stored_document GroupsJson w
    ≫= json_at [inl group_id; inl "messages"; inr i; inl "color"].

(** What no handler rewrites in a stored message. *)
Definition message_core (m : MessageDict.t) : string * string * string * string :=
  (MessageDict.id m, MessageDict.content m, MessageDict.user_id m,
   MessageDict.timestamp m).

(** [g'] is a later state of the group [g]: same id, name, description and
    organization; members and messages only added at the end. *)
Definition group_extends (g g' : GroupDict.t) : Prop :=
  GroupDict.id g' = GroupDict.id g /\
  GroupDict.name g' = GroupDict.name g /\
  GroupDict.description g' = GroupDict.description g /\
  GroupDict.org_id g' = GroupDict.org_id g /\
  GroupDict.members g `prefix_of` GroupDict.members g' /\
  (message_core <$> GroupDict.messages g)
    `prefix_of` (message_core <$> GroupDict.messages g').

(** The entries of a list of user ids that belong to other users than [u],
    in order. *)
Definition others (u : string) (l : list string) : list string :=
  filter (fun x => x <> u) l.

(** Every user is at most once in the likes and dislikes of the message,
    taken together. *)
Definition exclusive (likes dislikes : list string) : Prop :=
  forall u, occurrences u likes + occurrences u dislikes <= 1.

Definition reactions_exclusive (w : World) : Prop :=
  forall group_id group,
    groups_db w !! group_id = Some group ->
    Forall (fun m => exclusive (MessageDict.likes m) (MessageDict.dislikes m))
           (GroupDict.messages group).

Definition reactions_supplied_exclusive (rq : request) : Prop :=
  match rq with
  | CreateGroup group =>
      Forall (fun m => exclusive (Message.likes m) (Message.dislikes m))
             (Group.messages group)
  | _ => True
  end.

(** Every member and every message author of every group is a user. *)
Definition references_valid (w : World) : Prop :=
  forall group_id group,
    groups_db w !! group_id = Some group ->
    Forall (fun u => is_Some (users_db w !! u)) (GroupDict.members group) /\
    Forall (fun m => is_Some (users_db w !! MessageDict.user_id m))
           (GroupDict.messages group).

(** A request that creates its group, if any, without members and without
    messages. *)
Definition group_supplied_empty (rq : request) : Prop :=
  match rq with
  | CreateGroup group => Group.members group = [] /\ Group.messages group = []
  | _ => True
  end.

(** ** Sample data *)

Definition alice : User.t := User.mk "u1" "alice" "alice@example.org" [].
Definition acme : Organization.t := Organization.mk "o1" "acme" "an org".
Definition lobby : Group.t := Group.mk "g1" "lobby" "general" "o1" [] [].

(** Users, an organization, a group and one message ["m1"] written by
    ["u1"], all made through the endpoints. *)
Definition chat_world : World :=
  serve_all
    [CreateUser alice; CreateOrganization acme; CreateGroup lobby;
     AddMember "g1" "u1"; CreateMessage "m1" "2024-01-01T00:00:00" "g1" "hi" "u1"]
    (empty_store (Some ∅)).

(** The group ["g1"] as [chat_world] stores it. *)
Definition chat_lobby : GroupDict.t :=
  GroupDict.mk "g1" "lobby" "general" "o1" ["u1"]
    [MessageDict.mk "m1" "hi" "u1" "2024-01-01T00:00:00" [] [] None].

(** A group payload that brings its own members and messages: ["u1"] is
    listed twice as a member and twice in the likes of ["m1"], and ["u7"]
    is a user nobody created. *)
Definition crowded : Group.t :=
  Group.mk "g2" "crowded" "imported" "o1" ["u1"; "u1"; "u7"]
    [Message.mk "m1" "old" "u7" "2023-12-31T23:59:59" ["u1"; "u1"] []].

Definition crowded_world : World :=
  serve_all [CreateUser alice; CreateGroup crowded] (empty_store (Some ∅)).

(** * Properties *)





(** *** Strings *)






(** *** Sizes *)





(** *** Values *)







(** ** Dictionaries and lists *)

Lemma has_key_true {A} (k : string) (d : gmap string A) (a : A) :
  d !! k = Some a -> has_key k d = true.
Proof. intros H. unfold has_key. apply bool_decide_eq_true. by exists a. Qed.

Lemma has_key_false {A} (k : string) (d : gmap string A) :
  d !! k = None -> has_key k d = false.
Proof.
  intros H. unfold has_key. apply bool_decide_eq_false.
  rewrite H. by intros [? ?].
Qed.

Lemma has_key_is_Some {A} (k : string) (d : gmap string A) :
  has_key k d = true <-> is_Some (d !! k).
Proof. unfold has_key. apply bool_decide_eq_true. Qed.

Lemma occurrences_app x l1 l2 :
  occurrences x (l1 ++ l2) = occurrences x l1 + occurrences x l2.
Proof. induction l1 as [|y l1 IH]; simpl; [done|]. rewrite IH. lia. Qed.

Lemma occurrences_zero x l : x ∉ l <-> occurrences x l = 0.
Proof.
  induction l as [|y l IH]; simpl.
  - split; [done|]. intros _. apply not_elem_of_nil.
  - rewrite not_elem_of_cons, IH. destruct (decide (y = x)); split.
    + intros [? _]. congruence.
    + lia.
    + by intros [_ ->].
    + intros H. split; [congruence|lia].
Qed.

Lemma occurrences_pos x l : x ∈ l <-> 0 < occurrences x l.
Proof.
  destruct (decide (x ∈ l)) as [Hin|Hni]; split; try done.
  - intros _. destruct (occurrences x l) eqn:Ho; [|lia].
    by apply occurrences_zero in Ho.
  - intros Hpos. apply occurrences_zero in Hni. lia.
Qed.

Lemma list_remove_occurrences x l :
  occurrences x (list_remove x l) = pred (occurrences x l).
Proof.
  induction l as [|y l IH]; simpl; [done|].
  destruct (decide (y = x)) as [->|Hne]; [done|].
  simpl. by destruct (decide (y = x)).
Qed.

Lemma list_remove_absent x l : x ∉ l -> list_remove x l = l.
Proof.
  induction l as [|y l IH]; simpl; [done|].
  intros Hni. apply not_elem_of_cons in Hni as [Hne Hni].
  destruct (decide (y = x)); [congruence|]. by rewrite IH.
Qed.

(** The scan returns the first message with the id, and none only when no
    message has it. *)
Lemma find_message_Some message_id messages i message :
  find_message message_id messages = Some (i, message) <->
  messages !! i = Some message /\ MessageDict.id message = message_id /\
  forall j m, j < i -> messages !! j = Some m -> MessageDict.id m <> message_id.
Proof.
  revert i. induction messages as [|msg rest IH]; intros i; simpl.
  - split; [done|]. by intros [? _].
  - destruct (decide (MessageDict.id msg = message_id)) as [Heq|Hne].
    + split.
      * intros [= <- <-]. repeat split; [done|]. intros j m Hj. lia.
      * intros (Hi & Hid & Hfirst). destruct i as [|i].
        -- simpl in Hi. by injection Hi as ->.
        -- exfalso. by apply (Hfirst 0 msg); [lia| |].
    + rewrite fmap_Some. split.
      * intros ([k m'] & Hf & Heq). simpl in Heq. injection Heq as -> ->.
        apply IH in Hf as (Hk & Hid & Hfirst).
        repeat split; [done..|]. intros [|j] m Hj Hm; simpl in Hm.
        -- by injection Hm as <-.
        -- apply (Hfirst j); [lia|done].
      * intros (Hi & Hid & Hfirst). destruct i as [|i]; simpl in Hi.
        -- injection Hi as <-. done.
        -- exists (i, message). split; [|done].
           apply IH. repeat split; [done..|]. intros j m Hj Hm.
           apply (Hfirst (S j)); [lia|done].
Qed.

Lemma find_message_None message_id messages :
  find_message message_id messages = None <->
  Forall (fun m => MessageDict.id m <> message_id) messages.
Proof.
  induction messages as [|msg rest IH]; simpl.
  - split; [constructor|done].
  - destruct (decide (MessageDict.id msg = message_id)) as [Heq|Hne].
    + split; [done|]. intros H. by inversion H.
    + rewrite fmap_None, IH. split.
      * by constructor.
      * intros H. by inversion H.
Qed.

Lemma find_message_Exists message_id messages :
  Exists (fun m => MessageDict.id m = message_id) messages ->
  exists i message, find_message message_id messages = Some (i, message).
Proof.
  intros HE. destruct (find_message message_id messages) as [[i m]|] eqn:Hf.
  - by exists i, m.
  - apply find_message_None in Hf. apply Exists_exists in HE as (m & Hin & Hid).
    rewrite Forall_forall in Hf. by apply Hf in Hin.
Qed.

(** ** What each handler does to the world *)

Lemma persist_groups_db w : groups_db (persist_groups w) = groups_db w.
Proof.
  unfold persist_groups, save_groups, save_data, bind, read, write. simpl.
  by destruct (write_file _ _ _).
Qed.

Lemma persist_users_db w : users_db (persist_groups w) = users_db w.
Proof.
  unfold persist_groups, save_groups, save_data, bind, read, write. simpl.
  by destruct (write_file _ _ _).
Qed.

Lemma create_user_eq user w :
  create_user user w =
  if has_key (User.id user) (users_db w)
  then (w, Raise (mkHTTPException 400 "User already exists"))
  else
    let w' := set_users_db (<[User.id user := user]> (users_db w)) w in
    (persist UsersJson (json_of_db json_of_user (users_db w')) w',
     Return user).
Proof.
  unfold create_user, bind, read, when, raise. simpl.
  by destruct (has_key (User.id user) (users_db w)).
Qed.

Lemma create_organization_eq org w :
  create_organization org w =
  if has_key (Organization.id org) (orgs_db w)
  then (w, Raise (mkHTTPException 400 "Organization already exists"))
  else
    let w' := set_orgs_db (<[Organization.id org := org]> (orgs_db w)) w in
    (persist OrganizationsJson (json_of_db json_of_org (orgs_db w')) w',
     Return org).
Proof.
  unfold create_organization, bind, read, when, raise. simpl.
  by destruct (has_key (Organization.id org) (orgs_db w)).
Qed.

Lemma create_group_eq group w :
  create_group group w =
  if has_key (Group.id group) (groups_db w)
  then (w, Raise (mkHTTPException 400 "Group already exists"))
  else
    (persist_groups
       (set_groups_db (<[Group.id group := Group_dict group]> (groups_db w)) w),
     Return group).
Proof.
  unfold create_group, bind, read, when, raise. simpl.
  by destruct (has_key (Group.id group) (groups_db w)).
Qed.

Lemma add_member_to_group_eq group_id user_id w :
  add_member_to_group group_id user_id w =
  match groups_db w !! group_id with
  | None => (w, Raise (mkHTTPException 404 "Group not found"))
  | Some group =>
      if has_key user_id (users_db w) then
        if bool_decide (user_id ∈ GroupDict.members group)
        then (w, Return "Member added successfully")
        else
          (persist_groups
             (set_groups_db
                (alter (fun g => GroupDict.set_members
                                   (GroupDict.members g ++ [user_id]) g)
                   group_id (groups_db w)) w),
           Return "Member added successfully")
      else (w, Raise (mkHTTPException 404 "User not found"))
  end.
Proof.
  unfold add_member_to_group, group_or_404, bind, read, when, raise. simpl.
  destruct (groups_db w !! group_id) as [group|]; simpl; [|done].
  destruct (has_key user_id (users_db w)); simpl; [|done].
  by destruct (bool_decide (user_id ∈ GroupDict.members group)).
Qed.

Lemma create_message_eq uuid now group_id content user_id w :
  create_message uuid now group_id content user_id w =
  match groups_db w !! group_id with
  | None => (w, Raise (mkHTTPException 404 "Group not found"))
  | Some _ =>
      if has_key user_id (users_db w) then
        let message := MessageDict.mk uuid content user_id now [] [] None in
        (persist_groups
           (set_groups_db
              (alter (fun g => GroupDict.set_messages
                                 (GroupDict.messages g ++ [message]) g)
                 group_id (groups_db w)) w),
         Return message)
      else (w, Raise (mkHTTPException 404 "User not found"))
  end.
Proof.
  unfold create_message, group_or_404, bind, read, when, raise. simpl.
  destruct (groups_db w !! group_id) as [group|]; simpl; [|done].
  by destruct (has_key user_id (users_db w)).
Qed.

Lemma react_to_message_eq group_id message_id user_id reaction w :
  react_to_message group_id message_id user_id reaction w =
  match groups_db w !! group_id with
  | None => (w, Raise (mkHTTPException 404 "Group not found"))
  | Some group =>
      match find_message message_id (GroupDict.messages group) with
      | None => (w, Raise (mkHTTPException 404 "Message not found"))
      | Some (i, message) =>
          (persist_groups
             (set_groups_db
                (alter (fun g => GroupDict.set_messages
                          (<[i := react user_id reaction message]>
                             (GroupDict.messages g)) g)
                   group_id (groups_db w)) w),
           Return (react user_id reaction message))
      end
  end.
Proof.
  unfold react_to_message, group_or_404, bind, read, raise. simpl.
  destruct (groups_db w !! group_id) as [group|]; simpl; [|done].
  by destruct (find_message message_id (GroupDict.messages group)) as [[i m]|].
Qed.

Lemma get_messages_eq group_id w :
  get_messages group_id w =
  match groups_db w !! group_id with
  | None => (w, Raise (mkHTTPException 404 "Group not found"))
  | Some group =>
      (set_groups_db
         (alter (GroupDict.set_messages (annotate <$> GroupDict.messages group))
            group_id (groups_db w)) w,
       Return (annotate <$> GroupDict.messages group))
  end.
Proof.
  unfold get_messages, group_or_404, bind, read, raise. simpl.
  by destruct (groups_db w !! group_id) as [group|].
Qed.

Lemma react_eq user_id reaction message :
  react user_id reaction message =
  MessageDict.mk (MessageDict.id message) (MessageDict.content message)
    (MessageDict.user_id message) (MessageDict.timestamp message)
    (list_remove user_id (MessageDict.likes message)
       ++ (if decide (reaction = "like") then [user_id] else []))
    (list_remove user_id (MessageDict.dislikes message)
       ++ (if decide (reaction = "dislike") then [user_id] else []))
    (MessageDict.color message).
Proof.
  destruct message as [mid c uid t ls ds col]. unfold react. cbn.
  destruct (decide (user_id ∈ ls)) as [H1|H1];
    [ rewrite (bool_decide_eq_true_2 _ H1)
    | rewrite (bool_decide_eq_false_2 _ H1), (list_remove_absent _ _ H1) ];
    cbn.
  all: destruct (decide (user_id ∈ ds)) as [H2|H2];
    [ rewrite (bool_decide_eq_true_2 _ H2)
    | rewrite (bool_decide_eq_false_2 _ H2), (list_remove_absent _ _ H2) ];
    cbn.
  all: destruct (decide (reaction = "like")) as [Hl|Hl],
         (decide (reaction = "dislike")) as [Hd|Hd]; [congruence|..].
  all: cbn; by rewrite ?app_nil_r.
Qed.

(** ** Creation with an id that is taken *)

(** C8. Creating a user, an organization or a group whose id is already a
    key of its collection fails with Conflict (status 400); the world is
    left as it was, so the entity stored under that id is the one stored
    before the call. *)
Theorem create_existing_id_conflict (w : World) :
  (forall user stored,
      users_db w !! User.id user = Some stored ->
      Conflict (create_user user w).2 /\ (create_user user w).1 = w /\
      users_db (create_user user w).1 !! User.id user = Some stored) /\
  (forall org stored,
      orgs_db w !! Organization.id org = Some stored ->
      Conflict (create_organization org w).2 /\
      (create_organization org w).1 = w /\
      orgs_db (create_organization org w).1 !! Organization.id org
        = Some stored) /\
  (forall group stored,
      groups_db w !! Group.id group = Some stored ->
      Conflict (create_group group w).2 /\ (create_group group w).1 = w /\
      groups_db (create_group group w).1 !! Group.id group = Some stored).
Proof.
  split; [|split]; intros x stored Hstored.
  all: first [ rewrite create_user_eq | rewrite create_organization_eq
             | rewrite create_group_eq ].
  all: rewrite (has_key_true _ _ _ Hstored); simpl.
  all: split; [by eexists | by split].
Qed.

Lemma create_existing_id_conflict_witness :
  Conflict (create_user (User.mk "u1" "mallory" "m@example.org" []) chat_world).2
  /\ Conflict (create_organization (Organization.mk "o1" "x" "y") chat_world).2
  /\ Conflict (create_group (Group.mk "g1" "x" "y" "o2" ["u9"] []) chat_world).2.
Proof.
  destruct (create_existing_id_conflict chat_world) as (Hu & Ho & Hg).
  split; [|split].
  - refine (proj1 (Hu (User.mk "u1" "mallory" "m@example.org" []) alice _)).
    vm_compute. reflexivity.
  - refine (proj1 (Ho (Organization.mk "o1" "x" "y") acme _)).
    vm_compute. reflexivity.
  - refine (proj1 (Hg (Group.mk "g1" "x" "y" "o2" ["u9"] [])
                      (GroupDict.mk "g1" "lobby" "general" "o1" ["u1"]
                         [MessageDict.mk "m1" "hi" "u1" "2024-01-01T00:00:00"
                            [] [] None]) _)).
    vm_compute. reflexivity.
Defined.

(** ** Reactions *)

(** C6. In an existing group, reacting to a message id that no message of
    the group carries fails with NotFound (status 404) and changes nothing:
    the world, and with it the group's message list, is as before. *)
Theorem react_unknown_message_not_found
    (w : World) (group_id message_id user_id reaction : string)
    (group : GroupDict.t) :
  groups_db w !! group_id = Some group ->
  Forall (fun m => MessageDict.id m <> message_id) (GroupDict.messages group) ->
  let after := react_to_message group_id message_id user_id reaction w in
  NotFound after.2 /\ after.1 = w /\ groups_db after.1 !! group_id = Some group.
Proof.
  intros Hgroup Hnone. simpl. rewrite react_to_message_eq, Hgroup.
  apply find_message_None in Hnone. rewrite Hnone. simpl.
  repeat split; [|done]. by eexists.
Qed.

Lemma react_unknown_message_not_found_witness :
  NotFound (react_to_message "g1" "m2" "u1" "like" chat_world).2 /\
  (react_to_message "g1" "m2" "u1" "like" chat_world).1 = chat_world.
Proof.
  pose proof (react_unknown_message_not_found chat_world "g1" "m2" "u1" "like"
    (GroupDict.mk "g1" "lobby" "general" "o1" ["u1"]
       [MessageDict.mk "m1" "hi" "u1" "2024-01-01T00:00:00" [] [] None])) as H.
  cbv zeta in H.
  refine ((fun H' => conj (proj1 H') (proj1 (proj2 H'))) (H _ _)).
  - vm_compute. reflexivity.
  - repeat constructor. vm_compute. discriminate.
Defined.

(** C5 (as amended). When the group exists and holds a message with the
    given id, the call succeeds for every reaction string.  It works on the
    first such message: one [remove] of the user id on its likes and one on
    its dislikes, each deleting the first occurrence if there is one (so
    the user id is gone from a list that held it at most once), then the
    user id appended to likes exactly when the reaction is "like" and to
    dislikes exactly when it is "dislike"; any other string appends
    nothing.  The updated message replaces the old one in the stored group
    and is the response. *)
Theorem react_to_message_updates
    (w : World) (group_id message_id user_id reaction : string)
    (group : GroupDict.t) :
  groups_db w !! group_id = Some group ->
  Exists (fun m => MessageDict.id m = message_id) (GroupDict.messages group) ->
  exists i message,
    GroupDict.messages group !! i = Some message /\
    MessageDict.id message = message_id /\
    (forall j m, j < i -> GroupDict.messages group !! j = Some m ->
                 MessageDict.id m <> message_id) /\
    let cleared_likes := list_remove user_id (MessageDict.likes message) in
    let cleared_dislikes := list_remove user_id (MessageDict.dislikes message) in
    let updated :=
      MessageDict.mk (MessageDict.id message) (MessageDict.content message)
        (MessageDict.user_id message) (MessageDict.timestamp message)
        (cleared_likes ++ (if decide (reaction = "like") then [user_id] else []))
        (cleared_dislikes
           ++ (if decide (reaction = "dislike") then [user_id] else []))
        (MessageDict.color message) in
    let after := react_to_message group_id message_id user_id reaction w in
    after.2 = Return updated /\
    groups_db after.1 !! group_id =
      Some (GroupDict.set_messages
              (<[i := updated]> (GroupDict.messages group)) group) /\
    (forall other, other <> group_id ->
                   groups_db after.1 !! other = groups_db w !! other) /\
    occurrences user_id cleared_likes
      = pred (occurrences user_id (MessageDict.likes message)) /\
    occurrences user_id cleared_dislikes
      = pred (occurrences user_id (MessageDict.dislikes message)) /\
    (occurrences user_id (MessageDict.likes message) <= 1 ->
     user_id ∉ cleared_likes) /\
    (occurrences user_id (MessageDict.dislikes message) <= 1 ->
     user_id ∉ cleared_dislikes).
Proof.
  intros Hgroup Hex.
  destruct (find_message_Exists _ _ Hex) as (i & message & Hfind).
  exists i, message.
  pose proof (proj1 (find_message_Some _ _ _ _) Hfind) as (Hi & Hid & Hfirst).
  split; [done|]. split; [done|]. split; [done|]. cbv zeta.
  rewrite react_to_message_eq, Hgroup, Hfind. simpl.
  split; [by rewrite react_eq|]. split.
  { rewrite persist_groups_db. simpl.
    by rewrite lookup_alter_eq, Hgroup, react_eq. }
  split.
  { intros other Hother. rewrite persist_groups_db. simpl.
    by rewrite lookup_alter_ne. }
  rewrite !list_remove_occurrences. split; [done|]. split; [done|].
  split; intros Hle; apply occurrences_zero;
    rewrite list_remove_occurrences; lia.
Qed.

Lemma react_to_message_updates_witness :
  exists i message,
    GroupDict.messages chat_lobby !! i = Some message /\
    (react_to_message "g1" "m1" "u1" "like" chat_world).2 =
      Return (MessageDict.mk (MessageDict.id message)
                (MessageDict.content message) (MessageDict.user_id message)
                (MessageDict.timestamp message)
                (list_remove "u1" (MessageDict.likes message) ++ ["u1"])
                (list_remove "u1" (MessageDict.dislikes message) ++ [])
                (MessageDict.color message)).
Proof.
  destruct (react_to_message_updates chat_world "g1" "m1" "u1" "like" chat_lobby)
    as (i & message & Hi & _ & _ & Hres & _).
  - vm_compute. reflexivity.
  - apply Exists_cons_hd. reflexivity.
  - exists i, message. split; [exact Hi | exact Hres].
Defined.

(** C5 as stated fails where a list holds the user more than once: the
    message ["m1"] of ["g2"] came with ["u1"] twice in its likes, and after
    a successful call with a reaction that is neither "like" nor "dislike"
    the user is still in the likes. *)
Lemma react_to_message_updates_counterexample :
  let after := react_to_message "g2" "m1" "u1" "meh" crowded_world in
  exists message',
    after.2 = Return message' /\
    MessageDict.likes message' = ["u1"] /\
    "u1" ∈ MessageDict.likes message'.
Proof.
  cbv zeta. eexists. split; [vm_compute; reflexivity|].
  split; [reflexivity|]. apply list_elem_of_here.
Qed.

Lemma find_message_insert message_id messages i message message' :
  find_message message_id messages = Some (i, message) ->
  MessageDict.id message' = message_id ->
  find_message message_id (<[i := message']> messages) = Some (i, message').
Proof.
  intros Hfind Hid. apply find_message_Some in Hfind as (Hi & _ & Hfirst).
  apply find_message_Some. repeat split; [|done|].
  - apply list_lookup_insert_eq. by eapply lookup_lt_Some.
  - intros j m Hj Hm. rewrite list_lookup_insert_ne in Hm by lia.
    by apply (Hfirst j).
Qed.

(** One reaction on a message that holds the user at most once per list:
    the call succeeds, the same message stays the target, and afterwards
    the user is in at most one list, once. *)
Lemma react_step_exclusive w group_id message_id user_id reaction message :
  target_message group_id message_id w = Some message ->
  occurrences user_id (MessageDict.likes message) <= 1 ->
  occurrences user_id (MessageDict.dislikes message) <= 1 ->
  let after := react_to_message group_id message_id user_id reaction w in
  exists message',
    after.2 = Return message' /\
    target_message group_id message_id after.1 = Some message' /\
    occurrences user_id (MessageDict.likes message')
      + occurrences user_id (MessageDict.dislikes message') <= 1.
Proof.
  unfold target_message. intros Htarget Hl Hd. simpl.
  destruct (groups_db w !! group_id) as [group|] eqn:Hgroup; [|done].
  simpl in Htarget. apply fmap_Some in Htarget as ([i m] & Hfind & ->).
  simpl in *. rewrite react_to_message_eq, Hgroup, Hfind. simpl.
  exists (react user_id reaction m). split; [done|]. split.
  - rewrite persist_groups_db. simpl. rewrite lookup_alter_eq, Hgroup. simpl.
    erewrite find_message_insert; [done|done|].
    rewrite react_eq. simpl.
    by apply find_message_Some in Hfind as (_ & ? & _).
  - rewrite react_eq. simpl. rewrite !occurrences_app, !list_remove_occurrences.
    destruct (decide (reaction = "like")) as [Hr|Hr],
             (decide (reaction = "dislike")) as [Hr'|Hr']; [congruence|..].
    all: simpl; destruct (decide (user_id = user_id)); [lia|done].
Qed.

(** C4 (as amended). Take a message in which the user id occurs at most
    once in likes and at most once in dislikes (every message made by
    [create_message] is such).  Whatever reactions the user sends to it, one
    after the other and with arbitrary reaction strings, each call succeeds
    and after it the user id occurs at most once in likes and dislikes taken
    together. *)
Theorem react_sequence_exclusive
    (w : World) (group_id message_id user_id : string)
    (message : MessageDict.t) (reactions : list string) (reaction : string) :
  target_message group_id message_id w = Some message ->
  occurrences user_id (MessageDict.likes message) <= 1 ->
  occurrences user_id (MessageDict.dislikes message) <= 1 ->
  let before := react_many group_id message_id user_id reactions w in
  let after := react_to_message group_id message_id user_id reaction before in
  exists message',
    after.2 = Return message' /\
    target_message group_id message_id after.1 = Some message' /\
    occurrences user_id (MessageDict.likes message')
      + occurrences user_id (MessageDict.dislikes message') <= 1.
Proof.
  revert w message. induction reactions as [|r rs IH]; intros w message Ht Hl Hd.
  - by apply (react_step_exclusive w group_id message_id user_id reaction message).
  - destruct (react_step_exclusive w group_id message_id user_id r message Ht Hl Hd)
      as (m1 & _ & Ht1 & Hsum).
    apply (IH _ m1 Ht1); lia.
Qed.

Lemma react_sequence_exclusive_witness :
  exists message',
    (react_to_message "g1" "m1" "u1" "meh"
       (react_many "g1" "m1" "u1" ["like"; "dislike"; "like"] chat_world)).2
      = Return message' /\
    occurrences "u1" (MessageDict.likes message')
      + occurrences "u1" (MessageDict.dislikes message') <= 1.
Proof.
  destruct (react_sequence_exclusive chat_world "g1" "m1" "u1"
              (MessageDict.mk "m1" "hi" "u1" "2024-01-01T00:00:00" [] [] None)
              ["like"; "dislike"; "like"] "meh")
    as (message' & Hres & _ & Hsum).
  - vm_compute. reflexivity.
  - simpl. lia.
  - simpl. lia.
  - exists message'. split; [exact Hres | exact Hsum].
Defined.

(** C4 as stated, for any message, fails: in a group created with a message
    whose likes list the user twice, a "dislike" by that user succeeds and
    leaves the user in both lists. *)
Lemma react_sequence_exclusive_counterexample :
  let after := react_to_message "g2" "m1" "u1" "dislike" crowded_world in
  let message' :=
    MessageDict.mk "m1" "old" "u7" "2023-12-31T23:59:59" ["u1"] ["u1"] None in
  after.2 = Return message' /\
  target_message "g2" "m1" after.1 = Some message' /\
  "u1" ∈ MessageDict.likes message' /\ "u1" ∈ MessageDict.dislikes message' /\
  ~ (occurrences "u1" (MessageDict.likes message')
       + occurrences "u1" (MessageDict.dislikes message') <= 1).
Proof.
  cbv zeta. split; [vm_compute; reflexivity|].
  split; [vm_compute; reflexivity|].
  split; [apply list_elem_of_here|]. split; [apply list_elem_of_here|].
  vm_compute. lia.
Qed.

(** ** Membership *)

Lemma persist_dbs f data w :
  users_db (persist f data w) = users_db w /\
  orgs_db (persist f data w) = orgs_db w /\
  groups_db (persist f data w) = groups_db w.
Proof.
  unfold persist, save_data, write. simpl. by destruct (write_file _ _ _).
Qed.

(** C7 (as amended). For an existing group and an existing user, two
    successive [add_member_to_group] calls both succeed, the second changes
    nothing, and the resulting members list holds the user id: once when
    the list held it at most once before the first call, and as many times
    as before otherwise. *)
Theorem add_member_twice
    (w : World) (group_id user_id : string) (group : GroupDict.t) :
  groups_db w !! group_id = Some group ->
  is_Some (users_db w !! user_id) ->
  let first := add_member_to_group group_id user_id w in
  let second := add_member_to_group group_id user_id first.1 in
  first.2 = Return "Member added successfully" /\
  second.2 = Return "Member added successfully" /\
  second.1 = first.1 /\
  exists group',
    groups_db first.1 !! group_id = Some group' /\
    groups_db second.1 !! group_id = Some group' /\
    user_id ∈ GroupDict.members group' /\
    occurrences user_id (GroupDict.members group')
      = Nat.max 1 (occurrences user_id (GroupDict.members group)).
Proof.
  intros Hgroup Huser. apply has_key_is_Some in Huser. simpl.
  rewrite (add_member_to_group_eq group_id user_id w), Hgroup, Huser.
  destruct (decide (user_id ∈ GroupDict.members group)) as [Hin|Hni].
  - rewrite (bool_decide_eq_true_2 _ Hin). simpl.
    rewrite add_member_to_group_eq, Hgroup, Huser, (bool_decide_eq_true_2 _ Hin).
    simpl. repeat split. exists group. repeat split; [done..|].
    apply occurrences_pos in Hin. lia.
  - rewrite (bool_decide_eq_false_2 _ Hni). simpl.
    set (group' := GroupDict.set_members (GroupDict.members group ++ [user_id]) group).
    set (w' := persist_groups _).
    assert (groups_db w' !! group_id = Some group') as Hgroup'.
    { unfold w'. rewrite persist_groups_db. simpl.
      by rewrite lookup_alter_eq, Hgroup. }
    assert (user_id ∈ GroupDict.members group') as Hin'.
    { simpl. apply elem_of_app. right. apply list_elem_of_here. }
    rewrite add_member_to_group_eq, Hgroup'.
    replace (users_db w') with (users_db w)
      by (unfold w'; by rewrite persist_users_db).
    rewrite Huser, (bool_decide_eq_true_2 _ Hin'). simpl.
    repeat split. exists group'. repeat split; [done..|].
    simpl. rewrite occurrences_app. apply occurrences_zero in Hni. rewrite Hni.
    simpl. by destruct (decide (user_id = user_id)).
Qed.

Lemma add_member_twice_witness :
  exists group',
    groups_db (add_member_to_group "g1" "u1"
                 (add_member_to_group "g1" "u1" chat_world).1).1 !! "g1"
      = Some group' /\
    occurrences "u1" (GroupDict.members group') = 1.
Proof.
  destruct (add_member_twice chat_world "g1" "u1" chat_lobby)
    as (_ & _ & _ & group' & _ & Hsecond & _ & Hocc).
  - vm_compute. reflexivity.
  - exists alice. vm_compute. reflexivity.
  - exists group'. split; [exact Hsecond | exact Hocc].
Defined.

(** C7 as stated fails: the group ["g2"] was created with ["u1"] listed
    twice, ["u1"] is an existing user, and after two successful calls the
    members list still holds ["u1"] twice. *)
Lemma add_member_twice_counterexample :
  let first := add_member_to_group "g2" "u1" crowded_world in
  let second := add_member_to_group "g2" "u1" first.1 in
  is_Some (users_db crowded_world !! "u1") /\
  first.2 = Return "Member added successfully" /\
  second.2 = Return "Member added successfully" /\
  exists group',
    groups_db second.1 !! "g2" = Some group' /\
    GroupDict.members group' = ["u1"; "u1"; "u7"] /\
    occurrences "u1" (GroupDict.members group') <> 1.
Proof.
  cbv zeta. split; [exists alice; vm_compute; reflexivity|].
  split; [vm_compute; reflexivity|]. split; [vm_compute; reflexivity|].
  eexists. split; [vm_compute; reflexivity|]. split; [reflexivity|].
  vm_compute. lia.
Qed.

(** A mutation that leaves [members] alone keeps every members list. *)
Lemma lookup_alter_members (f : GroupDict.t -> GroupDict.t)
    (db : gmap string GroupDict.t) (group_id k : string) (group' : GroupDict.t) :
  (forall g, GroupDict.members (f g) = GroupDict.members g) ->
  alter f group_id db !! k = Some group' ->
  exists group, db !! k = Some group /\
                GroupDict.members group' = GroupDict.members group.
Proof.
  intros Hf. rewrite lookup_alter. case_decide as Hk.
  - subst k. intros (group & Hg & ->)%fmap_Some. by exists group.
  - intros Hg. by exists group'.
Qed.

Lemma members_nodup_alter (f : GroupDict.t -> GroupDict.t)
    (group_id : string) (w : World) :
  (forall g, GroupDict.members (f g) = GroupDict.members g) ->
  members_nodup w ->
  members_nodup (set_groups_db (alter f group_id (groups_db w)) w).
Proof.
  intros Hf Hinv k group' Hlook. simpl in Hlook.
  destruct (lookup_alter_members _ _ _ _ _ Hf Hlook) as (group & Hg & ->).
  by apply (Hinv k).
Qed.

Lemma members_nodup_persist_groups w :
  members_nodup w -> members_nodup (persist_groups w).
Proof. intros Hinv k g. rewrite persist_groups_db. apply Hinv. Qed.

Lemma members_nodup_persist f data w :
  members_nodup w -> members_nodup (persist f data w).
Proof.
  intros Hinv k g. rewrite (proj2 (proj2 (persist_dbs f data w))).
  apply Hinv.
Qed.

(** Every request keeps the members lists free of repetitions, provided a
    group payload does not bring one. *)
Lemma serve_members_nodup rq w :
  members_supplied_nodup rq -> members_nodup w -> members_nodup (serve rq w).
Proof.
  intros Hrq Hinv. destruct rq; simpl.
  - rewrite create_user_eq. destruct (has_key _ _); simpl; [done|].
    by apply members_nodup_persist.
  - unfold get_user, bind, read. simpl. by destruct (users_db w !! user_id).
  - rewrite create_organization_eq. destruct (has_key _ _); simpl; [done|].
    by apply members_nodup_persist.
  - rewrite create_group_eq. destruct (has_key _ _); simpl; [done|].
    apply members_nodup_persist_groups. intros k g. simpl.
    rewrite lookup_insert. case_decide.
    + by intros [= <-].
    + apply Hinv.
  - rewrite add_member_to_group_eq.
    destruct (groups_db w !! group_id) as [group|] eqn:Hgroup; [|done].
    destruct (has_key _ _); [|done]. case_bool_decide as Hin; simpl; [done|].
    apply members_nodup_persist_groups. intros k g. simpl.
    rewrite lookup_alter. case_decide.
    + subst k. rewrite Hgroup. simpl. intros [= <-]. simpl.
      apply NoDup_app. split; [by apply (Hinv group_id)|]. split.
      * intros x Hx Hx'. apply list_elem_of_singleton in Hx'. by subst.
      * apply NoDup_singleton.
    + apply Hinv.
  - rewrite create_message_eq.
    destruct (groups_db w !! group_id) as [group|] eqn:Hgroup; [|done].
    destruct (has_key _ _); [|done]. simpl.
    by apply members_nodup_persist_groups, members_nodup_alter.
  - rewrite react_to_message_eq.
    destruct (groups_db w !! group_id) as [group|] eqn:Hgroup; [|done].
    destruct (find_message _ _) as [[i m]|]; [|done]. simpl.
    by apply members_nodup_persist_groups, members_nodup_alter.
  - rewrite get_messages_eq.
    destruct (groups_db w !! group_id) as [group|] eqn:Hgroup; [|done].
    simpl. by apply members_nodup_alter.
Qed.

Lemma serve_all_members_nodup rqs w :
  Forall members_supplied_nodup rqs -> members_nodup w ->
  members_nodup (serve_all rqs w).
Proof.
  revert w. induction rqs as [|rq rqs IH]; intros w Hrqs Hinv; [done|].
  inversion Hrqs as [|? ? Hrq Hrqs']; subst. simpl.
  apply IH; [done|]. by apply serve_members_nodup.
Qed.

(** C2 (as amended). Start from an empty store and serve any sequence of
    requests in which every group payload lists each member at most once:
    in the store reached, no group has a duplicate in its members list. *)
Theorem members_never_duplicated
    (rqs : list request) (d : option (gmap string file))
    (group_id : string) (group : GroupDict.t) :
  Forall members_supplied_nodup rqs ->
  groups_db (serve_all rqs (empty_store d)) !! group_id = Some group ->
  NoDup (GroupDict.members group).
Proof.
  intros Hrqs. apply (serve_all_members_nodup rqs (empty_store d) Hrqs).
  intros k g. simpl. by rewrite lookup_empty.
Qed.

Lemma members_never_duplicated_witness :
  NoDup (GroupDict.members chat_lobby).
Proof.
  apply (members_never_duplicated
           [CreateUser alice; CreateOrganization acme; CreateGroup lobby;
            AddMember "g1" "u1";
            CreateMessage "m1" "2024-01-01T00:00:00" "g1" "hi" "u1"]
           (Some ∅) "g1" chat_lobby).
  - repeat constructor.
  - vm_compute. reflexivity.
Defined.

(** C2 as stated, for any payload, fails: one user and one group created
    with that user listed twice give a store whose group has a duplicate
    member. *)
Lemma members_never_duplicated_counterexample :
  exists group,
    groups_db (serve_all [CreateUser alice; CreateGroup crowded]
                 (empty_store (Some ∅))) !! "g2" = Some group /\
    ~ NoDup (GroupDict.members group).
Proof.
  eexists. split; [vm_compute; reflexivity|].
  simpl. intros Hnd. apply NoDup_cons in Hnd as [Hni _].
  apply Hni, list_elem_of_here.
Qed.

(** ** References to users *)

(** C3 (as amended). When [add_member_to_group] or [create_message]
    succeeds, the user id it records (as a member of the group, as the
    author of the new last message) is a key of [users_db], which the call
    does not change.  [create_group] on a free id succeeds and stores the
    members and messages of its payload as they come, whatever user ids
    they name. *)
Theorem referenced_user_exists (w : World) :
  (forall group_id user_id w' r,
      add_member_to_group group_id user_id w = (w', Return r) ->
      users_db w' = users_db w /\ is_Some (users_db w' !! user_id) /\
      exists group, groups_db w' !! group_id = Some group /\
                    user_id ∈ GroupDict.members group) /\
  (forall uuid now group_id content user_id w' message,
      create_message uuid now group_id content user_id w = (w', Return message) ->
      users_db w' = users_db w /\ is_Some (users_db w' !! user_id) /\
      MessageDict.user_id message = user_id /\
      exists group, groups_db w' !! group_id = Some group /\
                    last (GroupDict.messages group) = Some message) /\
  (forall group,
      groups_db w !! Group.id group = None ->
      (create_group group w).2 = Return group /\
      users_db (create_group group w).1 = users_db w /\
      groups_db (create_group group w).1 !! Group.id group
        = Some (Group_dict group)).
Proof.
  split; [|split].
  - intros group_id user_id w' r. rewrite add_member_to_group_eq.
    destruct (groups_db w !! group_id) as [group|] eqn:Hgroup; [|done].
    destruct (has_key user_id (users_db w)) eqn:Huser; [|done].
    apply has_key_is_Some in Huser. case_bool_decide as Hin.
    + intros [= <- <-]. repeat split; [done|]. by exists group.
    + intros [= <- <-]. rewrite persist_users_db, persist_groups_db. simpl.
      repeat split; [done|]. eexists. split.
      * by rewrite lookup_alter_eq, Hgroup.
      * simpl. apply elem_of_app. right. apply list_elem_of_here.
  - intros uuid now group_id content user_id w' message.
    rewrite create_message_eq.
    destruct (groups_db w !! group_id) as [group|] eqn:Hgroup; [|done].
    destruct (has_key user_id (users_db w)) eqn:Huser; [|done].
    apply has_key_is_Some in Huser. simpl. intros [= <- <-].
    rewrite persist_users_db, persist_groups_db. simpl.
    repeat split; [done|]. eexists. split.
    + by rewrite lookup_alter_eq, Hgroup.
    + simpl. apply last_snoc.
  - intros group Hfree. rewrite create_group_eq, (has_key_false _ _ Hfree).
    simpl. rewrite persist_users_db, persist_groups_db. simpl.
    repeat split. apply lookup_insert_eq.
Qed.

Lemma referenced_user_exists_witness :
  is_Some (users_db (add_member_to_group "g1" "u1" chat_world).1 !! "u1") /\
  is_Some (users_db
             (create_message "m2" "2024-01-02T00:00:00" "g1" "again" "u1"
                chat_world).1 !! "u1") /\
  (create_group crowded chat_world).2 = Return crowded.
Proof.
  destruct (referenced_user_exists chat_world) as (Hadd & Hmsg & Hgrp).
  split; [|split].
  - refine (proj1 (proj2 (Hadd "g1" "u1" _ "Member added successfully" _))).
    vm_compute. reflexivity.
  - refine (proj1 (proj2 (Hmsg "m2" "2024-01-02T00:00:00" "g1" "again" "u1" _
                            (MessageDict.mk "m2" "again" "u1"
                               "2024-01-02T00:00:00" [] [] None) _))).
    vm_compute. reflexivity.
  - refine (proj1 (Hgrp crowded _)). vm_compute. reflexivity.
Defined.

(** C3 as stated fails for [create_group]: the payload names ["u7"] as a
    member and as the author of a message, the call succeeds and stores
    both, and no user ["u7"] exists. *)
Lemma referenced_user_exists_counterexample :
  let w := serve_all [CreateUser alice] (empty_store (Some ∅)) in
  let after := create_group crowded w in
  after.2 = Return crowded /\
  users_db after.1 !! "u7" = None /\
  exists group,
    groups_db after.1 !! "g2" = Some group /\
    "u7" ∈ GroupDict.members group /\
    "u7" ∈ MessageDict.user_id <$> GroupDict.messages group.
Proof.
  cbv zeta. split; [vm_compute; reflexivity|].
  split; [vm_compute; reflexivity|].
  eexists. split; [vm_compute; reflexivity|]. simpl. split.
  - do 2 apply list_elem_of_further. apply list_elem_of_here.
  - apply list_elem_of_here.
Qed.

(** ** Reaction colors *)

Lemma Zpos_of_nat (t : nat) : 0 < t -> Z.pos (Pos.of_nat t) = Z.of_nat t.
Proof.
  intros Ht. rewrite <- (Nat2Pos.id t) at 2 by lia. by rewrite positive_nat_Z.
Qed.

Lemma like_ratio_one (a t : nat) :
  0 < t -> Qeq_bool (Z.of_nat a # Pos.of_nat t) 1 = true <-> a = t.
Proof.
  intros Ht. unfold Qeq_bool. simpl. rewrite Z.eqb_eq, Zpos_of_nat by done. lia.
Qed.

Lemma like_ratio_zero (a t : nat) :
  Qeq_bool (Z.of_nat a # Pos.of_nat t) 0 = true <-> a = 0.
Proof. unfold Qeq_bool. simpl. rewrite Z.eqb_eq. lia. Qed.

(** The color computed from the quotient depends only on which of the two
    lists are empty. *)
Lemma reaction_color_cases (message : MessageDict.t) :
  reaction_color message =
  match MessageDict.likes message, MessageDict.dislikes message with
  | [], [] => "gray"
  | _ :: _, [] => "green"
  | [], _ :: _ => "red"
  | _ :: _, _ :: _ => "yellow"
  end.
Proof.
  unfold reaction_color.
  destruct (MessageDict.likes message) as [|x ls],
           (MessageDict.dislikes message) as [|y ds]; simpl length.
  - by destruct (decide (0 < 0 + 0)) as [H|H]; [lia|].
  - destruct (decide (0 < 0 + S (length ds))) as [H|H]; [|lia].
    destruct (Qeq_bool _ 1) eqn:H1.
    { apply like_ratio_one in H1; [lia|done]. }
    destruct (Qeq_bool _ 0) eqn:H0; [done|].
    assert (Qeq_bool (Z.of_nat 0 # Pos.of_nat (0 + S (length ds))) 0 = true)
      as H0' by by apply like_ratio_zero.
    congruence.
  - destruct (decide (0 < S (length ls) + 0)) as [H|H]; [|lia].
    destruct (Qeq_bool _ 1) eqn:H1; [done|].
    assert (Qeq_bool (Z.of_nat (S (length ls)) # Pos.of_nat (S (length ls) + 0)) 1
            = true) as H1' by (apply like_ratio_one; lia).
    congruence.
  - destruct (decide (0 < S (length ls) + S (length ds))) as [H|H]; [|lia].
    destruct (Qeq_bool _ 1) eqn:H1.
    { apply like_ratio_one in H1; [lia|done]. }
    destruct (Qeq_bool _ 0) eqn:H0; [|done].
    apply like_ratio_zero in H0. lia.
Qed.

(** C9. [get_messages] on an existing group answers with one message per
    stored message, in order, with the same likes and dislikes, and each
    carries the color: "gray" when likes and dislikes are both empty,
    "green" when there are likes and no dislikes, "red" when there are
    dislikes and no likes, "yellow" when neither list is empty. *)
Theorem get_messages_colors
    (w : World) (group_id : string) (group : GroupDict.t) :
  groups_db w !! group_id = Some group ->
  exists messages,
    (get_messages group_id w).2 = Return messages /\
    length messages = length (GroupDict.messages group) /\
    forall i message,
      messages !! i = Some message ->
      let likes := MessageDict.likes message in
      let dislikes := MessageDict.dislikes message in
      (exists stored,
          GroupDict.messages group !! i = Some stored /\
          MessageDict.id message = MessageDict.id stored /\
          likes = MessageDict.likes stored /\
          dislikes = MessageDict.dislikes stored) /\
      (likes = [] -> dislikes = [] -> MessageDict.color message = Some "gray") /\
      (likes <> [] -> dislikes = [] -> MessageDict.color message = Some "green") /\
      (likes = [] -> dislikes <> [] -> MessageDict.color message = Some "red") /\
      (likes <> [] -> dislikes <> [] ->
       MessageDict.color message = Some "yellow").
Proof.
  intros Hgroup. rewrite get_messages_eq, Hgroup. simpl.
  exists (annotate <$> GroupDict.messages group).
  split; [done|]. split; [apply length_fmap|].
  intros i message Hi. rewrite list_lookup_fmap in Hi.
  apply fmap_Some in Hi as (stored & Hstored & ->). simpl.
  split; [by exists stored|]. rewrite reaction_color_cases.
  destruct (MessageDict.likes stored), (MessageDict.dislikes stored);
    repeat split; intros; congruence.
Qed.

Lemma get_messages_colors_witness :
  exists messages,
    (get_messages "g1" chat_world).2 = Return messages /\
    length messages = 1.
Proof.
  destruct (get_messages_colors chat_world "g1" chat_lobby)
    as (messages & Hres & Hlen & _).
  - vm_compute. reflexivity.
  - exists messages. split; [exact Hres | exact Hlen].
Defined.

(** ** The store on disk *)

(** *** The documents of the three dictionaries *)











(** *** Writing and reading a file *)




Lemma file_name_inj f g : file_name f = file_name g -> f = g.
Proof. by destruct f, g. Qed.

Lemma write_file_other f g text d d' :
  write_file f text d = Some d' -> g <> f -> entry g d' = entry g d.
Proof.
  unfold write_file. intros Hw Hne.
  assert (file_name f <> file_name g) as Hname
    by (intros Heq; by apply file_name_inj in Heq).
  destruct d as [| |files creatable]; try done.
  destruct (files !! file_name f) as [[old readable [|]|]|]; try done.
  - injection Hw as <-. simpl. by rewrite lookup_insert_ne.
  - destruct creatable; [|done]. injection Hw as <-. simpl.
    by rewrite lookup_insert_ne.
Qed.

Lemma save_data_eq f data w :
  save_data f data w
  = (match write_file f (json_dumps data) (fs w) with
     | Some d => set_fs d w
     | None => w
     end, Return tt).
Proof. reflexivity. Qed.



Lemma load_data_eq f default_data w :
  load_data f default_data w =
  match entry f (fs w) with
  | Some (Regular text true _) =>
      (w, Return (default (or_empty default_data) (json_loads text)))
  | Some _ => (w, Return (or_empty default_data))
  | None =>
      match makedirs (fs w) with
      | None => (w, Return (or_empty default_data))
      | Some d =>
          (persist f (or_empty default_data) (set_fs d w),
           Return (or_empty default_data))
      end
  end.
Proof.
  unfold load_data, bind, read, ret. simpl.
  destruct (entry f (fs w)) as [[text [|] writable|]|]; try done.
  - by destruct (json_loads text).
  - by destruct (makedirs (fs w)).
Qed.




(** ** Reading messages *)

(** [get_messages] rewrites the stored messages of the group: each one
    carries a color afterwards. *)
Lemma get_messages_mutates w group_id group :
  groups_db w !! group_id = Some group ->
  groups_db (get_messages group_id w).1 !! group_id =
    Some (GroupDict.set_messages (annotate <$> GroupDict.messages group) group).
Proof.
  intros Hgroup. rewrite get_messages_eq, Hgroup. simpl.
  by rewrite lookup_alter_eq, Hgroup.
Qed.

(** C1, at a concrete store. Before the read, neither the stored message
    ["m1"] nor [groups.json] has a color.  [get_messages] changes the stored
    group: ["m1"] now holds the color "gray".  The next request that saves
    (a like on ["m1"]) writes that color into [groups.json], although the
    message has one like by then. *)
Theorem get_messages_writes_color :
  let read := (get_messages "g1" chat_world).1 in
  let later := (react_to_message "g1" "m1" "u1" "like" read).1 in
  stored_color "g1" 0 chat_world = None /\
  color_on_disk "g1" 0 chat_world = None /\
  stored_color "g1" 0 read = Some "gray" /\
  groups_db read <> groups_db chat_world /\
  stored_color "g1" 0 later = Some "gray" /\
  color_on_disk "g1" 0 later = Some (JStr "gray").
Proof.
  cbv zeta. repeat split; try (vm_compute; reflexivity).
  intros Heq.
  assert (stored_color "g1" 0 (get_messages "g1" chat_world).1
          = stored_color "g1" 0 chat_world) as H
    by (unfold stored_color; by rewrite Heq).
  vm_compute in H. discriminate H.
Qed.


(** * Further properties of the handlers *)

(** ** Users and organizations *)

Lemma get_user_eq user_id w :
  get_user user_id w =
  (w, match users_db w !! user_id with
      | Some user => Return user
      | None => Raise (mkHTTPException 404 "User not found")
      end).
Proof.
  unfold get_user, bind, read, raise, ret. simpl.
  by destruct (users_db w !! user_id).
Qed.

(** X1. A user created under a free id is found again by [get_user], which
    returns exactly the user that was sent; what [get_user] answers for any
    other id is as before the creation. *)
Theorem create_user_then_get (w : World) (user : User.t) :
  users_db w !! User.id user = None ->
  let created := create_user user w in
  created.2 = Return user /\
  get_user (User.id user) created.1 = (created.1, Return user) /\
  forall other, other <> User.id user ->
                (get_user other created.1).2 = (get_user other w).2.
Proof.
  intros Hfree. cbv zeta. rewrite create_user_eq, (has_key_false _ _ Hfree).
  cbv zeta. simpl. split; [done|].
  destruct (persist_dbs UsersJson
              (json_of_db json_of_user (<[User.id user:=user]> (users_db w)))
              (set_users_db (<[User.id user:=user]> (users_db w)) w))
    as (Hu & _ & _).
  split.
  - rewrite get_user_eq, Hu. simpl. by rewrite lookup_insert_eq.
  - intros other Hother. rewrite !get_user_eq, Hu. simpl.
    by rewrite lookup_insert_ne.
Qed.

Lemma create_user_then_get_witness :
  get_user "u2" (create_user (User.mk "u2" "bob" "bob@example.org" ["o1"])
                   chat_world).1
  = ((create_user (User.mk "u2" "bob" "bob@example.org" ["o1"]) chat_world).1,
     Return (User.mk "u2" "bob" "bob@example.org" ["o1"])).
Proof.
  refine (proj1 (proj2 (create_user_then_get chat_world
                          (User.mk "u2" "bob" "bob@example.org" ["o1"]) _))).
  vm_compute. reflexivity.
Defined.

(** ** Errors and successes *)

(** X2. A request that is answered with an [HTTPException] has changed
    nothing: neither the three dictionaries nor the files.  This holds for
    each of the eight handlers. *)
Theorem failed_request_changes_nothing (w : World) (e : HTTPException) :
  (forall user, (create_user user w).2 = Raise e -> (create_user user w).1 = w) /\
  (forall user_id,
      (get_user user_id w).2 = Raise e -> (get_user user_id w).1 = w) /\
  (forall org,
      (create_organization org w).2 = Raise e ->
      (create_organization org w).1 = w) /\
  (forall group,
      (create_group group w).2 = Raise e -> (create_group group w).1 = w) /\
  (forall group_id user_id,
      (add_member_to_group group_id user_id w).2 = Raise e ->
      (add_member_to_group group_id user_id w).1 = w) /\
  (forall uuid now group_id content user_id,
      (create_message uuid now group_id content user_id w).2 = Raise e ->
      (create_message uuid now group_id content user_id w).1 = w) /\
  (forall group_id message_id user_id reaction,
      (react_to_message group_id message_id user_id reaction w).2 = Raise e ->
      (react_to_message group_id message_id user_id reaction w).1 = w) /\
  (forall group_id,
      (get_messages group_id w).2 = Raise e -> (get_messages group_id w).1 = w).
Proof.
  repeat apply conj.
  - intros user. rewrite create_user_eq. by destruct (has_key _ _).
  - intros user_id. by rewrite get_user_eq.
  - intros org. rewrite create_organization_eq. by destruct (has_key _ _).
  - intros group. rewrite create_group_eq. by destruct (has_key _ _).
  - intros group_id user_id. rewrite add_member_to_group_eq.
    destruct (groups_db w !! group_id); [|done].
    destruct (has_key _ _); [|done]. by case_bool_decide.
  - intros uuid now group_id content user_id. rewrite create_message_eq.
    destruct (groups_db w !! group_id); [|done]. by destruct (has_key _ _).
  - intros group_id message_id user_id reaction. rewrite react_to_message_eq.
    destruct (groups_db w !! group_id); [|done].
    by destruct (find_message _ _) as [[? ?]|].
  - intros group_id. rewrite get_messages_eq.
    by destruct (groups_db w !! group_id).
Qed.

Lemma failed_request_changes_nothing_witness :
  (add_member_to_group "g1" "u9" chat_world).1 = chat_world /\
  (create_message "m2" "2024-01-02T00:00:00" "g9" "hi" "u1" chat_world).1
    = chat_world.
Proof.
  destruct (failed_request_changes_nothing chat_world
              (mkHTTPException 404 "User not found"))
    as (_ & _ & _ & _ & Hadd & _).
  destruct (failed_request_changes_nothing chat_world
              (mkHTTPException 404 "Group not found"))
    as (_ & _ & _ & _ & _ & Hmsg & _).
  split.
  - apply Hadd. vm_compute. reflexivity.
  - apply Hmsg. vm_compute. reflexivity.
Defined.

(** X3. When each creation succeeds: exactly when the id of the payload is
    not yet a key of its dictionary.  Nothing else in the payload or in the
    store matters: not the organization ids of a user, not the organization,
    the members or the messages of a group. *)
Theorem create_succeeds_iff_id_free (w : World) :
  (forall user,
      (create_user user w).2 = Return user <->
      users_db w !! User.id user = None) /\
  (forall org,
      (create_organization org w).2 = Return org <->
      orgs_db w !! Organization.id org = None) /\
  (forall group,
      (create_group group w).2 = Return group <->
      groups_db w !! Group.id group = None).
Proof.
  repeat apply conj.
  - intros user. rewrite create_user_eq.
    destruct (users_db w !! User.id user) as [u|] eqn:H.
    + by rewrite (has_key_true _ _ _ H).
    + by rewrite (has_key_false _ _ H).
  - intros org. rewrite create_organization_eq.
    destruct (orgs_db w !! Organization.id org) as [o|] eqn:H.
    + by rewrite (has_key_true _ _ _ H).
    + by rewrite (has_key_false _ _ H).
  - intros group. rewrite create_group_eq.
    destruct (groups_db w !! Group.id group) as [g|] eqn:H.
    + by rewrite (has_key_true _ _ _ H).
    + by rewrite (has_key_false _ _ H).
Qed.

(** X4. When the requests on a group succeed.  Adding a member and posting
    a message: exactly when the group and the user exist (the author need
    not be a member).  Reacting: exactly when the group exists and one of
    its messages has the id (the reacting user need not exist, and any
    reaction string is taken).  Reading the messages: exactly when the
    group exists. *)
Theorem group_request_succeeds_iff (w : World) :
  (forall group_id user_id,
      (exists r, (add_member_to_group group_id user_id w).2 = Return r) <->
      is_Some (groups_db w !! group_id) /\ is_Some (users_db w !! user_id)) /\
  (forall uuid now group_id content user_id,
      (exists m, (create_message uuid now group_id content user_id w).2
                 = Return m) <->
      is_Some (groups_db w !! group_id) /\ is_Some (users_db w !! user_id)) /\
  (forall group_id message_id user_id reaction,
      (exists m, (react_to_message group_id message_id user_id reaction w).2
                 = Return m) <->
      exists group,
        groups_db w !! group_id = Some group /\
        Exists (fun m => MessageDict.id m = message_id)
               (GroupDict.messages group)) /\
  (forall group_id,
      (exists ms, (get_messages group_id w).2 = Return ms) <->
      is_Some (groups_db w !! group_id)).
Proof.
  repeat apply conj.
  - intros group_id user_id. rewrite add_member_to_group_eq.
    rewrite <- (has_key_is_Some user_id).
    destruct (groups_db w !! group_id) as [g|]; simpl.
    + destruct (has_key user_id (users_db w)).
      * split; [done|]. intros _. case_bool_decide; by eexists.
      * split; [by intros [? ?]|]. by intros [_ ?].
    + split; [by intros [? ?]|]. by intros [[? ?] _].
  - intros uuid now group_id content user_id. rewrite create_message_eq.
    rewrite <- (has_key_is_Some user_id).
    destruct (groups_db w !! group_id) as [g|]; simpl.
    + destruct (has_key user_id (users_db w)).
      * split; [done|]. intros _. by eexists.
      * split; [by intros [? ?]|]. by intros [_ ?].
    + split; [by intros [? ?]|]. by intros [[? ?] _].
  - intros group_id message_id user_id reaction. rewrite react_to_message_eq.
    destruct (groups_db w !! group_id) as [g|]; simpl.
    + destruct (find_message message_id (GroupDict.messages g))
        as [[i m]|] eqn:Hfind; simpl.
      * split; [|by eexists]. intros _. exists g. split; [done|].
        apply find_message_Some in Hfind as (Hi & Hid & _).
        apply Exists_exists. exists m. split; [|done].
        by eapply list_elem_of_lookup_2.
      * split; [by intros [? ?]|]. intros (g' & [= <-] & Hex).
        apply find_message_Exists in Hex as (i & m & Hf). congruence.
    + split; [by intros [? ?]|]. by intros (? & ? & _).
  - intros group_id. rewrite get_messages_eq.
    destruct (groups_db w !! group_id) as [g|]; simpl.
    + split; [done|]. by eexists.
    + split; [by intros [? ?]|]. by intros [? ?].
Qed.

(** ** What stays once it is stored *)

Lemma persist_groups_orgs_db w : orgs_db (persist_groups w) = orgs_db w.
Proof.
  unfold persist_groups, save_groups, save_data, bind, read, write. simpl.
  by destruct (write_file _ _ _).
Qed.

(** The users after a request: only a successful [create_user] adds one. *)
Lemma serve_users_db rq w :
  users_db (serve rq w) =
  match rq with
  | CreateUser user =>
      if has_key (User.id user) (users_db w) then users_db w
      else <[User.id user := user]> (users_db w)
  | _ => users_db w
  end.
Proof.
  destruct rq; simpl.
  - rewrite create_user_eq. destruct (has_key _ _); simpl; [done|].
    by rewrite (proj1 (persist_dbs _ _ _)).
  - by rewrite get_user_eq.
  - rewrite create_organization_eq. destruct (has_key _ _); simpl; [done|].
    by rewrite (proj1 (persist_dbs _ _ _)).
  - rewrite create_group_eq. destruct (has_key _ _); simpl; [done|].
    by rewrite persist_users_db.
  - rewrite add_member_to_group_eq.
    destruct (groups_db w !! group_id); [|done].
    destruct (has_key _ _); [|done]. case_bool_decide; simpl; [done|].
    by rewrite persist_users_db.
  - rewrite create_message_eq.
    destruct (groups_db w !! group_id); [|done].
    destruct (has_key _ _); [|done]. simpl. by rewrite persist_users_db.
  - rewrite react_to_message_eq.
    destruct (groups_db w !! group_id); [|done].
    destruct (find_message _ _) as [[? ?]|]; [|done]. simpl.
    by rewrite persist_users_db.
  - rewrite get_messages_eq. by destruct (groups_db w !! group_id).
Qed.

Lemma serve_orgs_db rq w :
  orgs_db (serve rq w) =
  match rq with
  | CreateOrganization org =>
      if has_key (Organization.id org) (orgs_db w) then orgs_db w
      else <[Organization.id org := org]> (orgs_db w)
  | _ => orgs_db w
  end.
Proof.
  destruct rq; simpl.
  - rewrite create_user_eq. destruct (has_key _ _); simpl; [done|].
    by rewrite (proj1 (proj2 (persist_dbs _ _ _))).
  - by rewrite get_user_eq.
  - rewrite create_organization_eq. destruct (has_key _ _); simpl; [done|].
    by rewrite (proj1 (proj2 (persist_dbs _ _ _))).
  - rewrite create_group_eq. destruct (has_key _ _); simpl; [done|].
    by rewrite persist_groups_orgs_db.
  - rewrite add_member_to_group_eq.
    destruct (groups_db w !! group_id); [|done].
    destruct (has_key _ _); [|done]. case_bool_decide; simpl; [done|].
    by rewrite persist_groups_orgs_db.
  - rewrite create_message_eq.
    destruct (groups_db w !! group_id); [|done].
    destruct (has_key _ _); [|done]. simpl. by rewrite persist_groups_orgs_db.
  - rewrite react_to_message_eq.
    destruct (groups_db w !! group_id); [|done].
    destruct (find_message _ _) as [[? ?]|]; [|done]. simpl.
    by rewrite persist_groups_orgs_db.
  - rewrite get_messages_eq. by destruct (groups_db w !! group_id).
Qed.

Lemma serve_keeps_user rq w user_id user :
  users_db w !! user_id = Some user ->
  users_db (serve rq w) !! user_id = Some user.
Proof.
  intros Hu. rewrite serve_users_db. destruct rq as [new| | | | | | |]; try done.
  destruct (has_key (User.id new) (users_db w)) eqn:Hk; [done|].
  rewrite lookup_insert_ne; [done|]. intros Heq. rewrite Heq in Hk.
  by rewrite (has_key_true _ _ _ Hu) in Hk.
Qed.

Lemma serve_keeps_org rq w org_id org :
  orgs_db w !! org_id = Some org ->
  orgs_db (serve rq w) !! org_id = Some org.
Proof.
  intros Ho. rewrite serve_orgs_db. destruct rq as [| |new| | | | |]; try done.
  destruct (has_key (Organization.id new) (orgs_db w)) eqn:Hk; [done|].
  rewrite lookup_insert_ne; [done|]. intros Heq. rewrite Heq in Hk.
  by rewrite (has_key_true _ _ _ Ho) in Hk.
Qed.

(** X5. Users and organizations are written once: whatever requests are
    served afterwards, a stored user and a stored organization stay under
    their id exactly as they were stored (no handler updates or deletes
    them). *)
Theorem users_and_organizations_never_change (rqs : list request) (w : World) :
  (forall user_id user,
      users_db w !! user_id = Some user ->
      users_db (serve_all rqs w) !! user_id = Some user) /\
  (forall org_id org,
      orgs_db w !! org_id = Some org ->
      orgs_db (serve_all rqs w) !! org_id = Some org).
Proof.
  revert w. induction rqs as [|rq rqs IH]; intros w; [done|]. simpl.
  destruct (IH (serve rq w)) as [IHu IHo]. split.
  - intros user_id user Hu. by apply IHu, serve_keeps_user.
  - intros org_id org Ho. by apply IHo, serve_keeps_org.
Qed.

Lemma users_and_organizations_never_change_witness :
  users_db (serve_all
              [CreateUser (User.mk "u1" "mallory" "m@example.org" []);
               CreateUser (User.mk "u2" "bob" "bob@example.org" []);
               GetMessages "g1"] chat_world) !! "u1" = Some alice.
Proof.
  refine (proj1 (users_and_organizations_never_change _ chat_world) "u1" alice _).
  vm_compute. reflexivity.
Defined.

Lemma group_extends_refl g : group_extends g g.
Proof. by repeat split. Qed.

Lemma group_extends_trans g1 g2 g3 :
  group_extends g1 g2 -> group_extends g2 g3 -> group_extends g1 g3.
Proof.
  intros (? & ? & ? & ? & Hm & Hs) (? & ? & ? & ? & Hm' & Hs').
  repeat split; try congruence.
  - by transitivity (GroupDict.members g2).
  - by transitivity (message_core <$> GroupDict.messages g2).
Qed.

(** An in-place mutation of one group that extends it extends every group
    of the dictionary. *)
Lemma alter_extends (f : GroupDict.t -> GroupDict.t)
    (db : gmap string GroupDict.t) (group_id k : string) (g0 g : GroupDict.t) :
  db !! group_id = Some g0 -> group_extends g0 (f g0) ->
  db !! k = Some g ->
  exists g', alter f group_id db !! k = Some g' /\ group_extends g g'.
Proof.
  intros Hg0 Hext Hg. rewrite lookup_alter. case_decide as Hk.
  - subst k. rewrite Hg0 in *. injection Hg as <-. by exists (f g0).
  - exists g. split; [done|]. apply group_extends_refl.
Qed.

Lemma react_message_core user_id reaction m :
  message_core (react user_id reaction m) = message_core m.
Proof. by rewrite react_eq. Qed.

Lemma serve_group_extends rq w k g :
  groups_db w !! k = Some g ->
  exists g', groups_db (serve rq w) !! k = Some g' /\ group_extends g g'.
Proof.
  intros Hg.
  assert (exists g', groups_db w !! k = Some g' /\ group_extends g g') as Hsame
    by (exists g; split; [done | apply group_extends_refl]).
  destruct rq; simpl.
  - rewrite create_user_eq. destruct (has_key _ _); simpl; [done|].
    by rewrite (proj2 (proj2 (persist_dbs _ _ _))).
  - by rewrite get_user_eq.
  - rewrite create_organization_eq. destruct (has_key _ _); simpl; [done|].
    by rewrite (proj2 (proj2 (persist_dbs _ _ _))).
  - rewrite create_group_eq.
    destruct (has_key (Group.id group) (groups_db w)) eqn:Hk; simpl; [done|].
    rewrite persist_groups_db. simpl. rewrite lookup_insert_ne; [done|].
    intros Heq. rewrite Heq in Hk. by rewrite (has_key_true _ _ _ Hg) in Hk.
  - rewrite add_member_to_group_eq.
    destruct (groups_db w !! group_id) as [g0|] eqn:Hg0; [|done].
    destruct (has_key _ _); [|done]. case_bool_decide; simpl; [done|].
    rewrite persist_groups_db. simpl. apply (alter_extends _ _ _ _ g0); [done| |done].
    repeat split; simpl; [|done]. by apply prefix_app_r.
  - rewrite create_message_eq.
    destruct (groups_db w !! group_id) as [g0|] eqn:Hg0; [|done].
    destruct (has_key _ _); [|done]. simpl.
    rewrite persist_groups_db. simpl. apply (alter_extends _ _ _ _ g0); [done| |done].
    repeat split; simpl; [done|]. rewrite fmap_app. by apply prefix_app_r.
  - rewrite react_to_message_eq.
    destruct (groups_db w !! group_id) as [g0|] eqn:Hg0; [|done].
    destruct (find_message _ _) as [[i m]|] eqn:Hfind; [|done]. simpl.
    rewrite persist_groups_db. simpl. apply (alter_extends _ _ _ _ g0); [done| |done].
    repeat split; simpl; [done|].
    apply find_message_Some in Hfind as (Hi & _ & _).
    rewrite list_fmap_insert, react_message_core, list_insert_id; [done|].
    by rewrite list_lookup_fmap, Hi.
  - rewrite get_messages_eq.
    destruct (groups_db w !! group_id) as [g0|] eqn:Hg0; [|done]. simpl.
    apply (alter_extends _ _ _ _ g0); [done| |done].
    repeat split; simpl; [done|].
    rewrite <- list_fmap_compose. by erewrite list_fmap_ext.
Qed.

(** X6. Groups only grow.  Whatever requests are served, a stored group is
    still there with the same id, name, description and organization; its
    members list is the old one with, at most, ids added at the end; and its
    messages are the old ones, in the same order and with the same id,
    content, author and timestamp, with, at most, messages added at the
    end.  No handler deletes a group, removes a member, or deletes, reorders
    or rewrites a message. *)
Theorem groups_only_grow
    (rqs : list request) (w : World) (group_id : string) (group : GroupDict.t) :
  groups_db w !! group_id = Some group ->
  exists group',
    groups_db (serve_all rqs w) !! group_id = Some group' /\
    group_extends group group'.
Proof.
  revert w group. induction rqs as [|rq rqs IH]; intros w group Hg; simpl.
  - exists group. split; [done|]. apply group_extends_refl.
  - destruct (serve_group_extends rq w group_id group Hg) as (g1 & Hg1 & Hext1).
    destruct (IH _ _ Hg1) as (g2 & Hg2 & Hext2).
    exists g2. split; [done|]. by eapply group_extends_trans.
Qed.

Lemma groups_only_grow_witness :
  exists group',
    groups_db (serve_all
                 [CreateGroup (Group.mk "g1" "other" "" "o2" [] []);
                  ReactToMessage "g1" "m1" "u1" "dislike";
                  CreateMessage "m2" "2024-01-02T00:00:00" "g1" "bye" "u1";
                  GetMessages "g1"] chat_world) !! "g1" = Some group' /\
    group_extends chat_lobby group'.
Proof.
  apply (groups_only_grow _ chat_world "g1" chat_lobby).
  vm_compute. reflexivity.
Defined.

(** ** Saving *)





(** ** Reading messages, again *)

Lemma annotate_annotate m : annotate (annotate m) = annotate m.
Proof. unfold annotate. by rewrite !reaction_color_cases. Qed.

(** X8. [get_messages] writes no file and touches neither the users, the
    organizations nor any other group; in the group it reads, the members
    and, message by message, the id, content, author, timestamp, likes and
    dislikes are as before: the color is all it changes. *)
Theorem get_messages_changes_colors_only (w : World) (group_id : string) :
  let after := (get_messages group_id w).1 in
  fs after = fs w /\ users_db after = users_db w /\ orgs_db after = orgs_db w /\
  (forall other, other <> group_id ->
                 groups_db after !! other = groups_db w !! other) /\
  (forall group,
      groups_db w !! group_id = Some group ->
      exists group',
        groups_db after !! group_id = Some group' /\
        GroupDict.set_messages [] group' = GroupDict.set_messages [] group /\
        (fun m => (message_core m, MessageDict.likes m, MessageDict.dislikes m))
          <$> GroupDict.messages group'
        = (fun m => (message_core m, MessageDict.likes m, MessageDict.dislikes m))
            <$> GroupDict.messages group).
Proof.
  cbv zeta. rewrite get_messages_eq.
  destruct (groups_db w !! group_id) as [g|] eqn:Hg; simpl.
  - split; [done|]. split; [done|]. split; [done|]. split.
    + intros other Hother. by rewrite lookup_alter_ne.
    + intros group [= <-]. eexists. split.
      * by rewrite lookup_alter_eq, Hg.
      * split; [done|]. simpl. rewrite <- list_fmap_compose.
        by apply list_fmap_ext.
  - split; [done|]. split; [done|]. split; [done|]. split; [done|].
    by intros group.
Qed.

Lemma get_messages_changes_colors_only_witness :
  exists group',
    groups_db (get_messages "g1" chat_world).1 !! "g1" = Some group' /\
    GroupDict.set_messages [] group' = GroupDict.set_messages [] chat_lobby.
Proof.
  destruct (get_messages_changes_colors_only chat_world "g1")
    as (_ & _ & _ & _ & Hgroup).
  destruct (Hgroup chat_lobby) as (group' & Hlook & Hsame & _).
  - vm_compute. reflexivity.
  - exists group'. split; [exact Hlook | exact Hsame].
Defined.

(** X9. Reading twice is reading once: a second [get_messages] on the same
    group gives the same answer as the first and leaves the world as the
    first left it. *)
Theorem get_messages_idempotent (w : World) (group_id : string) :
  get_messages group_id (get_messages group_id w).1
  = get_messages group_id w.
Proof.
  rewrite (get_messages_eq group_id w).
  destruct (groups_db w !! group_id) as [g|] eqn:Hg; simpl.
  - rewrite get_messages_eq. simpl. rewrite lookup_alter_eq, Hg. simpl.
    rewrite <- list_fmap_compose.
    rewrite (list_fmap_ext (annotate ∘ annotate) annotate)
      by (intros; apply annotate_annotate).
    unfold set_groups_db. simpl. by rewrite alter_alter_eq.
  - by rewrite get_messages_eq, Hg.
Qed.

(** ** Reactions of several users *)

Lemma others_app u l1 l2 :
  others u (l1 ++ l2) = (others u l1 ++ others u l2)%list.
Proof. apply filter_app. Qed.

Lemma others_self u : others u [u] = [].
Proof. unfold others. rewrite filter_cons. by destruct (decide (u <> u)). Qed.

Lemma others_list_remove u l : others u (list_remove u l) = others u l.
Proof.
  unfold others. induction l as [|y l IH]; simpl; [done|].
  destruct (decide (y = u)) as [->|Hne].
  - rewrite (filter_cons _ u). by destruct (decide (u <> u)).
  - rewrite !filter_cons. destruct (decide (y <> u)); by rewrite IH.
Qed.

Lemma others_react u reaction m :
  others u (MessageDict.likes (react u reaction m))
    = others u (MessageDict.likes m) /\
  others u (MessageDict.dislikes (react u reaction m))
    = others u (MessageDict.dislikes m).
Proof.
  rewrite react_eq. simpl. rewrite !others_app, !others_list_remove.
  destruct (decide (reaction = "like")), (decide (reaction = "dislike"));
    by rewrite ?others_self, ?app_nil_r.
Qed.

(** X10. A reaction concerns the reacting user only.  After
    [react_to_message] by a user, in every message of every group, the
    likes and the dislikes of all other users are the same ids in the same
    order as before. *)
Theorem react_keeps_other_users
    (w : World) (group_id message_id user_id reaction k : string)
    (group : GroupDict.t) :
  groups_db w !! k = Some group ->
  exists group',
    groups_db (react_to_message group_id message_id user_id reaction w).1 !! k
      = Some group' /\
    (fun m => (others user_id (MessageDict.likes m),
               others user_id (MessageDict.dislikes m)))
      <$> GroupDict.messages group'
    = (fun m => (others user_id (MessageDict.likes m),
                 others user_id (MessageDict.dislikes m)))
        <$> GroupDict.messages group.
Proof.
  intros Hk. rewrite react_to_message_eq.
  destruct (groups_db w !! group_id) as [g|] eqn:Hg; [|by exists group].
  destruct (find_message message_id (GroupDict.messages g)) as [[i m]|] eqn:Hfind;
    [|by exists group].
  simpl. rewrite persist_groups_db. simpl. rewrite lookup_alter.
  case_decide as Heq; [|by exists group].
  subst k. rewrite Hg in *. injection Hk as <-. simpl. eexists. split; [done|].
  simpl. apply find_message_Some in Hfind as (Hi & _ & _).
  rewrite list_fmap_insert. apply list_insert_id.
  rewrite list_lookup_fmap, Hi. simpl.
  by destruct (others_react user_id reaction m) as [-> ->].
Qed.

Lemma react_keeps_other_users_witness :
  exists group',
    groups_db (react_to_message "g2" "m1" "u7" "dislike" crowded_world).1 !! "g2"
      = Some group' /\
    (fun m => (others "u7" (MessageDict.likes m),
               others "u7" (MessageDict.dislikes m)))
      <$> GroupDict.messages group'
    = [(["u1"; "u1"], [])].
Proof.
  destruct (react_keeps_other_users crowded_world "g2" "m1" "u7" "dislike" "g2"
              (GroupDict.mk "g2" "crowded" "imported" "o1" ["u1"; "u1"; "u7"]
                 [MessageDict.mk "m1" "old" "u7" "2023-12-31T23:59:59"
                    ["u1"; "u1"] [] None]))
    as (group' & Hlook & Hsame).
  - vm_compute. reflexivity.
  - exists group'. split; [exact Hlook|]. rewrite Hsame. vm_compute. reflexivity.
Defined.

Lemma react_membership u reaction m :
  occurrences u (MessageDict.likes m) <= 1 ->
  occurrences u (MessageDict.dislikes m) <= 1 ->
  (u ∈ MessageDict.likes (react u reaction m) <-> reaction = "like") /\
  (u ∈ MessageDict.dislikes (react u reaction m) <-> reaction = "dislike").
Proof.
  intros Hl Hd. rewrite react_eq. simpl. rewrite !elem_of_app.
  assert (u ∉ list_remove u (MessageDict.likes m)) as Hnl
    by (apply occurrences_zero; rewrite list_remove_occurrences; lia).
  assert (u ∉ list_remove u (MessageDict.dislikes m)) as Hnd
    by (apply occurrences_zero; rewrite list_remove_occurrences; lia).
  split.
  - destruct (decide (reaction = "like")) as [Hr|Hr].
    + split; [done|]. intros _. right. apply list_elem_of_here.
    + split; [|done]. intros [?|Hin]; [done|]. by apply not_elem_of_nil in Hin.
  - destruct (decide (reaction = "dislike")) as [Hr|Hr].
    + split; [done|]. intros _. right. apply list_elem_of_here.
    + split; [|done]. intros [?|Hin]; [done|]. by apply not_elem_of_nil in Hin.
Qed.

Lemma react_to_message_target w group_id message_id user_id reaction m :
  target_message group_id message_id w = Some m ->
  (react_to_message group_id message_id user_id reaction w).2
  = Return (react user_id reaction m).
Proof.
  unfold target_message. intros Ht. rewrite react_to_message_eq.
  destruct (groups_db w !! group_id) as [g|]; [|done]. simpl in Ht.
  apply fmap_Some in Ht as ([i m0] & -> & ->). done.
Qed.

Lemma react_many_target w group_id message_id user_id reactions m :
  target_message group_id message_id w = Some m ->
  occurrences user_id (MessageDict.likes m) <= 1 ->
  occurrences user_id (MessageDict.dislikes m) <= 1 ->
  exists m',
    target_message group_id message_id
      (react_many group_id message_id user_id reactions w) = Some m' /\
    occurrences user_id (MessageDict.likes m') <= 1 /\
    occurrences user_id (MessageDict.dislikes m') <= 1.
Proof.
  revert w m. induction reactions as [|r rs IH]; intros w m Ht Hl Hd; simpl.
  - by exists m.
  - destruct (react_step_exclusive w group_id message_id user_id r m Ht Hl Hd)
      as (m1 & _ & Ht1 & Hsum).
    apply (IH _ m1 Ht1); lia.
Qed.

(** X11. The last reaction wins.  On a message that holds the user at most
    once in each list, after any run of reactions by that user the user is
    in the likes exactly when the last reaction was "like" and in the
    dislikes exactly when it was "dislike"; after any other string the user
    is in neither, whatever the earlier reactions were. *)
Theorem last_reaction_wins
    (w : World) (group_id message_id user_id : string)
    (message : MessageDict.t) (reactions : list string) (reaction : string) :
  target_message group_id message_id w = Some message ->
  occurrences user_id (MessageDict.likes message) <= 1 ->
  occurrences user_id (MessageDict.dislikes message) <= 1 ->
  let before := react_many group_id message_id user_id reactions w in
  let after := react_to_message group_id message_id user_id reaction before in
  exists message',
    after.2 = Return message' /\
    target_message group_id message_id after.1 = Some message' /\
    (user_id ∈ MessageDict.likes message' <-> reaction = "like") /\
    (user_id ∈ MessageDict.dislikes message' <-> reaction = "dislike").
Proof.
  intros Ht Hl Hd. cbv zeta.
  destruct (react_many_target w group_id message_id user_id reactions message
              Ht Hl Hd) as (m & Htm & Hlm & Hdm).
  destruct (react_step_exclusive _ group_id message_id user_id reaction m
              Htm Hlm Hdm) as (m' & Hres & Ht' & _).
  exists m'. split; [done|]. split; [done|].
  rewrite (react_to_message_target _ _ _ user_id reaction m Htm) in Hres.
  injection Hres as <-. by apply react_membership.
Qed.

Lemma last_reaction_wins_witness :
  exists message',
    (react_to_message "g1" "m1" "u1" "dislike"
       (react_many "g1" "m1" "u1" ["like"; "like"; "meh"] chat_world)).2
      = Return message' /\
    ("u1" ∈ MessageDict.likes message' <-> "dislike" = "like") /\
    ("u1" ∈ MessageDict.dislikes message' <-> "dislike" = "dislike").
Proof.
  destruct (last_reaction_wins chat_world "g1" "m1" "u1"
              (MessageDict.mk "m1" "hi" "u1" "2024-01-01T00:00:00" [] [] None)
              ["like"; "like"; "meh"] "dislike")
    as (message' & Hres & _ & Hlikes & Hdislikes).
  - vm_compute. reflexivity.
  - simpl. lia.
  - simpl. lia.
  - exists message'. split; [exact Hres|]. split; [exact Hlikes | exact Hdislikes].
Defined.

(** ** Invariants of the reachable stores *)

Lemma list_remove_occurrences_other x y l :
  x <> y -> occurrences y (list_remove x l) = occurrences y l.
Proof.
  intros Hxy. induction l as [|z l IH]; simpl; [done|].
  destruct (decide (z = x)) as [->|Hne].
  - by destruct (decide (x = y)).
  - simpl. by rewrite IH.
Qed.

Lemma react_exclusive u reaction m :
  exclusive (MessageDict.likes m) (MessageDict.dislikes m) ->
  exclusive (MessageDict.likes (react u reaction m))
            (MessageDict.dislikes (react u reaction m)).
Proof.
  intros Hex v. specialize (Hex v). rewrite react_eq. simpl.
  rewrite !occurrences_app. destruct (decide (u = v)) as [<-|Hne].
  - rewrite !list_remove_occurrences.
    destruct (decide (reaction = "like")), (decide (reaction = "dislike"));
      [congruence|..]; simpl; destruct (decide (u = u)); try done; lia.
  - rewrite !list_remove_occurrences_other by done.
    destruct (decide (reaction = "like")), (decide (reaction = "dislike"));
      simpl; destruct (decide (u = v)); try done; lia.
Qed.

(** A mutation of one group whose new messages are exclusive keeps the
    invariant. *)
Lemma reactions_exclusive_alter (f : GroupDict.t -> GroupDict.t)
    (group_id : string) (g0 : GroupDict.t) (w : World) :
  groups_db w !! group_id = Some g0 ->
  Forall (fun m => exclusive (MessageDict.likes m) (MessageDict.dislikes m))
         (GroupDict.messages (f g0)) ->
  reactions_exclusive w ->
  reactions_exclusive
    (persist_groups (set_groups_db (alter f group_id (groups_db w)) w)).
Proof.
  intros Hg0 Hf Hinv k g. rewrite persist_groups_db. simpl.
  rewrite lookup_alter. case_decide.
  - subst k. rewrite Hg0. simpl. by intros [= <-].
  - apply Hinv.
Qed.

Lemma serve_reactions_exclusive rq w :
  reactions_supplied_exclusive rq ->
  reactions_exclusive w -> reactions_exclusive (serve rq w).
Proof.
  intros Hrq Hinv. destruct rq; simpl.
  - rewrite create_user_eq. destruct (has_key _ _); simpl; [done|].
    intros k g. rewrite (proj2 (proj2 (persist_dbs _ _ _))). apply Hinv.
  - by rewrite get_user_eq.
  - rewrite create_organization_eq. destruct (has_key _ _); simpl; [done|].
    intros k g. rewrite (proj2 (proj2 (persist_dbs _ _ _))). apply Hinv.
  - rewrite create_group_eq. destruct (has_key _ _); simpl; [done|].
    intros k g. rewrite persist_groups_db. simpl. rewrite lookup_insert.
    case_decide; [|apply Hinv]. intros [= <-]. simpl.
    apply Forall_fmap. simpl in Hrq. eapply Forall_impl; [exact Hrq|]. done.
  - rewrite add_member_to_group_eq.
    destruct (groups_db w !! group_id) as [g0|] eqn:Hg0; [|done].
    destruct (has_key _ _); [|done]. case_bool_decide; simpl; [done|].
    apply (reactions_exclusive_alter _ _ g0); [done| |done]. simpl.
    by apply (Hinv group_id).
  - rewrite create_message_eq.
    destruct (groups_db w !! group_id) as [g0|] eqn:Hg0; [|done].
    destruct (has_key _ _); [|done]. simpl.
    apply (reactions_exclusive_alter _ _ g0); [done| |done]. simpl.
    apply Forall_app. split; [by apply (Hinv group_id)|].
    constructor; [|constructor]. intros v. simpl. lia.
  - rewrite react_to_message_eq.
    destruct (groups_db w !! group_id) as [g0|] eqn:Hg0; [|done].
    destruct (find_message _ _) as [[i m]|] eqn:Hfind; [|done]. simpl.
    apply (reactions_exclusive_alter _ _ g0); [done| |done]. simpl.
    apply find_message_Some in Hfind as (Hi & _ & _).
    pose proof (Hinv group_id g0 Hg0) as Hall.
    apply Forall_insert; [done|]. apply react_exclusive.
    by apply (Forall_lookup_1 _ _ _ _ Hall Hi).
  - rewrite get_messages_eq.
    destruct (groups_db w !! group_id) as [g0|] eqn:Hg0; [|done]. simpl.
    intros k g. simpl. rewrite lookup_alter. case_decide; [|apply Hinv].
    subst k. rewrite Hg0. simpl. intros [= <-]. simpl.
    apply Forall_fmap. by apply (Hinv group_id).
Qed.

(** X12. Reactions stay exclusive in the whole store.  Start from an empty
    store and serve any requests in which the messages brought by group
    payloads hold every user at most once in likes and dislikes together:
    then in every message of every group, every user is in at most one of
    likes and dislikes, and at most once there, whoever reacted, in
    whatever order, and whatever was read in between. *)
Theorem reactions_exclusive_reachable
    (rqs : list request) (d : option (gmap string file)) :
  Forall reactions_supplied_exclusive rqs ->
  reactions_exclusive (serve_all rqs (empty_store d)).
Proof.
  assert (forall w, Forall reactions_supplied_exclusive rqs ->
                    reactions_exclusive w ->
                    reactions_exclusive (serve_all rqs w)) as Hgen.
  { induction rqs as [|rq rqs IH]; intros w Hrqs Hinv; [done|].
    inversion Hrqs as [|? ? Hrq Hrqs']; subst. simpl.
    apply IH; [done|]. by apply serve_reactions_exclusive. }
  intros Hrqs. apply Hgen; [done|]. intros k g. simpl. by rewrite lookup_empty.
Qed.

Lemma reactions_exclusive_reachable_witness :
  reactions_exclusive
    (serve_all
       [CreateUser alice; CreateGroup lobby;
        CreateMessage "m1" "2024-01-01T00:00:00" "g1" "hi" "u1";
        ReactToMessage "g1" "m1" "u1" "like"; GetMessages "g1";
        ReactToMessage "g1" "m1" "u2" "dislike";
        ReactToMessage "g1" "m1" "u1" "dislike"]
       (empty_store None)).
Proof.
  apply reactions_exclusive_reachable. repeat constructor.
Defined.

Lemma references_valid_alter (f : GroupDict.t -> GroupDict.t)
    (group_id : string) (g0 : GroupDict.t) (w w' : World) :
  users_db w' = users_db w ->
  groups_db w' = alter f group_id (groups_db w) ->
  groups_db w !! group_id = Some g0 ->
  Forall (fun u => is_Some (users_db w !! u)) (GroupDict.members (f g0)) ->
  Forall (fun m => is_Some (users_db w !! MessageDict.user_id m))
         (GroupDict.messages (f g0)) ->
  references_valid w -> references_valid w'.
Proof.
  intros Hu Hg Hg0 Hm Hs Hinv k g. rewrite Hu, Hg, lookup_alter.
  case_decide.
  - subst k. rewrite Hg0. simpl. by intros [= <-].
  - apply Hinv.
Qed.

Lemma serve_references_valid rq w :
  group_supplied_empty rq -> references_valid w -> references_valid (serve rq w).
Proof.
  intros Hrq Hinv. destruct rq as [new| | |group| | | |]; simpl.
  - rewrite create_user_eq. destruct (has_key _ _); simpl; [done|].
    intros k g. destruct (persist_dbs UsersJson
      (json_of_db json_of_user (<[User.id new:=new]> (users_db w)))
      (set_users_db (<[User.id new:=new]> (users_db w)) w)) as (-> & _ & ->).
    simpl. intros Hk. destruct (Hinv k g Hk) as [Hm Hs]. split.
    + eapply Forall_impl; [exact Hm|]. intros u Hsome. simpl in *.
      apply lookup_insert_is_Some'. by right.
    + eapply Forall_impl; [exact Hs|]. intros m Hsome. simpl in *.
      apply lookup_insert_is_Some'. by right.
  - by rewrite get_user_eq.
  - rewrite create_organization_eq. destruct (has_key _ _); simpl; [done|].
    intros k g. destruct (persist_dbs OrganizationsJson
      (json_of_db json_of_org (<[Organization.id org:=org]> (orgs_db w)))
      (set_orgs_db (<[Organization.id org:=org]> (orgs_db w)) w))
      as (-> & _ & ->).
    apply Hinv.
  - rewrite create_group_eq. destruct (has_key _ _); simpl; [done|].
    intros k g. rewrite persist_users_db, persist_groups_db. simpl.
    rewrite lookup_insert. case_decide; [|apply Hinv].
    intros [= <-]. simpl. destruct Hrq as [-> ->]. by split.
  - rewrite add_member_to_group_eq.
    destruct (groups_db w !! group_id) as [g0|] eqn:Hg0; [|done].
    destruct (has_key user_id (users_db w)) eqn:Hu; [|done].
    case_bool_decide; simpl; [done|].
    eapply (references_valid_alter _ group_id g0 w);
      [by rewrite persist_users_db | by rewrite persist_groups_db | done | | | done].
    + simpl. apply Forall_app. split; [by apply (Hinv group_id)|].
      constructor; [|constructor]. by apply has_key_is_Some.
    + simpl. by apply (Hinv group_id).
  - rewrite create_message_eq.
    destruct (groups_db w !! group_id) as [g0|] eqn:Hg0; [|done].
    destruct (has_key user_id (users_db w)) eqn:Hu; [|done]. simpl.
    eapply (references_valid_alter _ group_id g0 w);
      [by rewrite persist_users_db | by rewrite persist_groups_db | done | | | done].
    + simpl. by apply (Hinv group_id).
    + simpl. apply Forall_app. split; [by apply (Hinv group_id)|].
      constructor; [|constructor]. simpl. by apply has_key_is_Some.
  - rewrite react_to_message_eq.
    destruct (groups_db w !! group_id) as [g0|] eqn:Hg0; [|done].
    destruct (find_message _ _) as [[i m]|] eqn:Hfind; [|done]. simpl.
    eapply (references_valid_alter _ group_id g0 w);
      [by rewrite persist_users_db | by rewrite persist_groups_db | done | | | done].
    + simpl. by apply (Hinv group_id).
    + simpl. destruct (Hinv group_id g0 Hg0) as [_ Hs].
      apply find_message_Some in Hfind as (Hi & _ & _).
      apply Forall_insert; [done|]. rewrite react_eq. simpl.
      by apply (Forall_lookup_1 _ _ _ _ Hs Hi).
  - rewrite get_messages_eq.
    destruct (groups_db w !! group_id) as [g0|] eqn:Hg0; [|done]. simpl.
    eapply (references_valid_alter _ group_id g0 w); [done|done|done| | |done].
    + simpl. by apply (Hinv group_id).
    + simpl. apply Forall_fmap. by apply (Hinv group_id).
Qed.

(** X13. References stay valid when groups are created empty.  Start from
    an empty store and serve any requests whose group payloads bring no
    members and no messages: then every member of every group and the
    author of every message is a stored user. *)
Theorem references_valid_reachable
    (rqs : list request) (d : option (gmap string file)) :
  Forall group_supplied_empty rqs ->
  references_valid (serve_all rqs (empty_store d)).
Proof.
  assert (forall w, Forall group_supplied_empty rqs -> references_valid w ->
                    references_valid (serve_all rqs w)) as Hgen.
  { induction rqs as [|rq rqs IH]; intros w Hrqs Hinv; [done|].
    inversion Hrqs as [|? ? Hrq Hrqs']; subst. simpl.
    apply IH; [done|]. by apply serve_references_valid. }
  intros Hrqs. apply Hgen; [done|]. intros k g. simpl. by rewrite lookup_empty.
Qed.

Lemma references_valid_reachable_witness : references_valid chat_world.
Proof.
  apply (references_valid_reachable
           [CreateUser alice; CreateOrganization acme; CreateGroup lobby;
            AddMember "g1" "u1";
            CreateMessage "m1" "2024-01-01T00:00:00" "g1" "hi" "u1"]
           (Some ∅)).
  repeat constructor.
Defined.

(** ** The database functions *)

Lemma accepts_write_eq f d :
  accepts_write f d =
  match d with
  | Present files creatable =>
      match files !! file_name f with
      | Some (Regular _ _ writable) => writable
      | Some Directory => false
      | None => creatable
      end
  | _ => false
  end.
Proof.
  unfold accepts_write, write_file. destruct d as [| |files creatable]; try done.
  destruct (files !! file_name f) as [[old readable [|]|]|]; try done.
  by destruct creatable.
Qed.

Lemma makedirs_entry f d d' : makedirs d = Some d' -> entry f d' = entry f d.
Proof.
  destruct d as [[|]| |files creatable]; simpl; try done.
  - by intros [= <-].
  - by intros [= <-].
Qed.


Lemma persist_other f g data w :
  g <> f -> entry g (fs (persist f data w)) = entry g (fs w).
Proof.
  intros Hne. unfold persist. rewrite save_data_eq. simpl.
  destruct (write_file f (json_dumps data) (fs w)) as [d|] eqn:Hw; [|done].
  simpl. by apply (write_file_other f g _ _ _ Hw).
Qed.








(** ** Start-up and restart *)

(** *** Reading a dictionary off its document *)

Lemma string_of_text_of_string s : string_of_text (text_of_string s) = Some s.
Proof.
  induction s as [|c s IH]; simpl; [done|].
  pose proof (N_ascii_bounded c) as Hc. apply N.ltb_lt in Hc.
  by rewrite Hc, IH, ascii_N_embedding.
Qed.

Lemma string_of_text_Some t s :
  string_of_text t = Some s -> t = text_of_string s.
Proof.
  revert s. induction t as [|c t IH]; intros s; simpl.
  - by intros [= <-].
  - destruct (c <? 256)%N eqn:Hc; [|done]. apply N.ltb_lt in Hc.
    destruct (string_of_text t) as [s'|]; [|done]. simpl. intros [= <-].
    simpl. by rewrite N_ascii_embedding, (IH s').
Qed.

Lemma as_str_JStr s : as_str (JStr s) = Some s.
Proof. apply string_of_text_of_string. Qed.

Lemma as_strs_json_strs l : as_strs (json_strs l) = Some l.
Proof.
  apply (mapM_fmap_Some as_str JStr). intros s. apply as_str_JStr.
Qed.

Lemma messages_of_json_list (l : list MessageDict.t) :
  (forall m, message_of_json (json_of_message m) = Some m) ->
  messages_of_json (JList (json_of_message <$> l)) = Some l.
Proof.
  intros Hm. by apply (mapM_fmap_Some message_of_json json_of_message).
Qed.

Lemma user_fields (a b c d : json) :
  let fields : gmap (list N) json :=
    list_to_map (prod_map text_of_string id
                   <$> [("id", a); ("username", b); ("email", c);
                        ("org_ids", d)]) in
  field "id" fields = Some a /\ field "username" fields = Some b /\
  field "email" fields = Some c /\ field "org_ids" fields = Some d /\
  size fields = 4.
Proof. vm_compute. by repeat split. Qed.

Lemma user_of_json_of_user u : user_of_json (json_of_user u) = Some u.
Proof.
  destruct u as [id username email org_ids]. unfold json_of_user, json_dict.
  cbn [User.id User.username User.email User.org_ids].
  destruct (user_fields (JStr id) (JStr username) (JStr email)
              (json_strs org_ids)) as (Ha & Hb & Hc & Hd & Hsize).
  cbv zeta in *. unfold user_of_json. rewrite Ha, Hb, Hc, Hd, Hsize.
  cbn [mbind option_bind]. rewrite !as_str_JStr, as_strs_json_strs.
  reflexivity.
Qed.

Lemma org_fields (a b c : json) :
  let fields : gmap (list N) json :=
    list_to_map (prod_map text_of_string id
                   <$> [("id", a); ("name", b); ("description", c)]) in
  field "id" fields = Some a /\ field "name" fields = Some b /\
  field "description" fields = Some c /\ size fields = 3.
Proof. vm_compute. by repeat split. Qed.

Lemma org_of_json_of_org o : org_of_json (json_of_org o) = Some o.
Proof.
  destruct o as [id name description]. unfold json_of_org, json_dict.
  cbn [Organization.id Organization.name Organization.description].
  destruct (org_fields (JStr id) (JStr name) (JStr description))
    as (Ha & Hb & Hc & Hsize).
  cbv zeta in *. unfold org_of_json. rewrite Ha, Hb, Hc, Hsize.
  cbn [mbind option_bind]. rewrite !as_str_JStr. reflexivity.
Qed.

Lemma message_fields (a b c d e f : json) (color : option json) :
  let fields : gmap (list N) json :=
    list_to_map (prod_map text_of_string id
                   <$> ([("id", a); ("content", b); ("user_id", c);
                         ("timestamp", d); ("likes", e); ("dislikes", f)]
                        ++ match color with
                           | Some g => [("color", g)]
                           | None => []
                           end)%list) in
  field "id" fields = Some a /\ field "content" fields = Some b /\
  field "user_id" fields = Some c /\ field "timestamp" fields = Some d /\
  field "likes" fields = Some e /\ field "dislikes" fields = Some f /\
  field "color" fields = color /\
  size fields = match color with Some _ => 7 | None => 6 end.
Proof. destruct color; vm_compute; by repeat split. Qed.

Lemma message_of_json_of_message m :
  message_of_json (json_of_message m) = Some m.
Proof.
  destruct m as [id content user_id timestamp likes dislikes color].
  unfold json_of_message, json_dict.
  cbn [MessageDict.id MessageDict.content MessageDict.user_id
       MessageDict.timestamp MessageDict.likes MessageDict.dislikes
       MessageDict.color].
  destruct (message_fields (JStr id) (JStr content) (JStr user_id)
              (JStr timestamp) (json_strs likes) (json_strs dislikes)
              (JStr <$> color))
    as (Ha & Hb & Hc & Hd & He & Hf & Hcolor & Hsize).
  cbv zeta in *. unfold message_of_json. destruct color as [c|].
  - cbn [fmap option_fmap option_map] in *.
    rewrite Ha, Hb, Hc, Hd, He, Hf, Hcolor, Hsize.
    cbn [mbind option_bind]. rewrite !as_str_JStr, !as_strs_json_strs.
    reflexivity.
  - cbn [fmap option_fmap option_map] in *.
    rewrite Ha, Hb, Hc, Hd, He, Hf, Hcolor, Hsize.
    cbn [mbind option_bind]. rewrite !as_str_JStr, !as_strs_json_strs.
    reflexivity.
Qed.

Lemma group_fields (a b c d e f : json) :
  let fields : gmap (list N) json :=
    list_to_map (prod_map text_of_string id
                   <$> [("id", a); ("name", b); ("description", c);
                        ("org_id", d); ("members", e); ("messages", f)]) in
  field "id" fields = Some a /\ field "name" fields = Some b /\
  field "description" fields = Some c /\ field "org_id" fields = Some d /\
  field "members" fields = Some e /\ field "messages" fields = Some f /\
  size fields = 6.
Proof. vm_compute. by repeat split. Qed.

Lemma group_of_json_of_group g : group_of_json (json_of_group g) = Some g.
Proof.
  destruct g as [id name description org_id members messages].
  unfold json_of_group, json_dict.
  cbn [GroupDict.id GroupDict.name GroupDict.description GroupDict.org_id
       GroupDict.members GroupDict.messages].
  destruct (group_fields (JStr id) (JStr name) (JStr description)
              (JStr org_id) (json_strs members)
              (JList (json_of_message <$> messages)))
    as (Ha & Hb & Hc & Hd & He & Hf & Hsize).
  cbv zeta in *. unfold group_of_json. rewrite Ha, Hb, Hc, Hd, He, Hf, Hsize.
  cbn [mbind option_bind]. rewrite !as_str_JStr, as_strs_json_strs.
  cbn [mbind option_bind].
  rewrite (messages_of_json_list _ message_of_json_of_message).
  reflexivity.
Qed.

Lemma text_of_string_inj : Inj (=) (=) text_of_string.
Proof.
  intros s1 s2 H. apply (f_equal string_of_text) in H.
  rewrite !string_of_text_of_string in H. by injection H.
Qed.

Lemma json_of_db_kmap {A} (enc : A -> json) (db : gmap string A) :
  json_of_db enc db = JDict (kmap text_of_string (enc <$> db)).
Proof.
  unfold json_of_db, json_dict, kmap. by rewrite map_to_list_fmap.
Qed.

Lemma db_of_member_comm {A} (dec : json -> option A) k1 v1 k2 v2 acc :
  k1 <> k2 ->
  db_of_member dec k1 v1 (db_of_member dec k2 v2 acc)
  = db_of_member dec k2 v2 (db_of_member dec k1 v1 acc).
Proof.
  intros Hne. unfold db_of_member. destruct acc as [db|]; simpl; [|done].
  destruct (string_of_text k1) as [s1|] eqn:H1,
           (string_of_text k2) as [s2|] eqn:H2; simpl; try done.
  - destruct (dec v1) as [x1|], (dec v2) as [x2|]; simpl; try done.
    f_equal. apply insert_insert_ne. intros ->. apply Hne.
    apply string_of_text_Some in H1, H2. congruence.
  - by destruct (dec v1).
  - by destruct (dec v2).
Qed.

Lemma db_of_json_of_db {A} (enc : A -> json) (dec : json -> option A)
    (db : gmap string A) :
  (forall x, dec (enc x) = Some x) ->
  db_of_json dec (json_of_db enc db) = Some db.
Proof.
  intros Hdec. pose proof text_of_string_inj as Hinj.
  rewrite json_of_db_kmap. unfold db_of_json.
  induction db as [|k x db Hk Hfold IH] using map_first_key_ind.
  - by rewrite fmap_empty, kmap_empty, map_fold_empty.
  - rewrite fmap_insert, kmap_insert by done. rewrite map_fold_insert_L.
    + rewrite IH. unfold db_of_member. simpl.
      rewrite string_of_text_of_string. simpl. by rewrite Hdec.
    + intros j1 j2 z1 z2 y Hne _ _. by apply db_of_member_comm.
    + by rewrite lookup_kmap, lookup_fmap, Hk.
Qed.

(** *** Start-up *)

Lemma load_data_readable f default_data w text writable j :
  entry f (fs w) = Some (Regular text true writable) ->
  json_loads text = Some j ->
  load_data f default_data w = (w, Return j).
Proof. intros He Hj. by rewrite load_data_eq, He, Hj. Qed.

Lemma load_data_missing f w :
  entry f (fs w) = None ->
  exists d,
    load_data f (JDict ∅) w = (set_fs d w, Return (JDict ∅)) /\
    forall g, g <> f -> entry g d = entry g (fs w).
Proof.
  intros He. rewrite load_data_eq, He. simpl.
  destruct (makedirs (fs w)) as [d|] eqn:Hmk.
  - exists (fs (persist f (JDict ∅) (set_fs d w))). split.
    + f_equal. unfold persist. rewrite save_data_eq. simpl.
      destruct (write_file _ _ _); [done|]. by destruct w.
    + intros g Hg. rewrite persist_other by done. simpl.
      by apply makedirs_entry.
  - exists (fs w). split; [|done]. by destruct w.
Qed.

Lemma on_disk_entry f w :
  on_disk f w ->
  exists text writable,
    entry f (fs w) = Some (Regular text true writable) /\
    json_loads text = Some (database f w).
Proof.
  unfold on_disk, readable_file, stored_document, stored_text.
  destruct (entry f (fs w)) as [[text [|] writable|]|]; try by intros [? ?].
  simpl. intros [_ Hj]. by exists text, writable.
Qed.

Lemma in_step_on_disk w f : in_step w -> on_disk f w.
Proof.
  intros Hw. destruct (Hw f) as (text & He & Hj).
  unfold on_disk, readable_file, stored_document, stored_text.
  by rewrite He.
Qed.

Lemma initialize_on_disk w :
  (forall f, on_disk f w) -> initialize (fs w) = Some w.
Proof.
  intros Hw. unfold initialize.
  destruct (on_disk_entry _ _ (Hw UsersJson)) as (t1 & w1 & He1 & Hj1).
  destruct (on_disk_entry _ _ (Hw OrganizationsJson)) as (t2 & w2 & He2 & Hj2).
  destruct (on_disk_entry _ _ (Hw GroupsJson)) as (t3 & w3 & He3 & Hj3).
  set (w0 := mkWorld ∅ ∅ ∅ (fs w)).
  rewrite (load_data_readable UsersJson _ w0 t1 w1 _ He1 Hj1).
  rewrite (load_data_readable OrganizationsJson _ w0 t2 w2 _ He2 Hj2).
  rewrite (load_data_readable GroupsJson _ w0 t3 w3 _ He3 Hj3).
  unfold database. cbv beta iota.
  rewrite (db_of_json_of_db json_of_user user_of_json _ user_of_json_of_user).
  rewrite (db_of_json_of_db json_of_org org_of_json _ org_of_json_of_org).
  rewrite (db_of_json_of_db json_of_group group_of_json _
             group_of_json_of_group).
  simpl. by destruct w.
Qed.

Lemma initialize_missing d :
  (forall f, entry f d = None) ->
  exists d', initialize d = Some (mkWorld ∅ ∅ ∅ d').
Proof.
  intros Hd. unfold initialize.
  destruct (load_data_missing UsersJson (mkWorld ∅ ∅ ∅ d)) as (d1 & -> & H1);
    [apply Hd|].
  destruct (load_data_missing OrganizationsJson
              (set_fs d1 (mkWorld ∅ ∅ ∅ d))) as (d2 & -> & H2).
  { simpl. rewrite H1 by done. apply Hd. }
  destruct (load_data_missing GroupsJson
              (set_fs d2 (set_fs d1 (mkWorld ∅ ∅ ∅ d)))) as (d3 & -> & H3).
  { simpl. rewrite H2, H1 by done. apply Hd. }
  exists d3. simpl. by rewrite !map_fold_empty.
Qed.

(** X17. Module start-up binds the three dictionaries to what [load_data]
    returns.  Where none of the three files is there, the dictionaries are
    empty, whether or not the files can be created; in an empty working
    directory where they can, the three files are created with [{}] and
    are then in step with the dictionaries.  At a restart over files that
    may be read and denote the dictionaries the process had in memory,
    the new process has these same dictionaries, and nothing changes in
    the directory. *)
Theorem initialize_binds_dictionaries :
  (forall d, (forall f, entry f d = None) ->
             exists d', initialize d = Some (mkWorld ∅ ∅ ∅ d')) /\
  (exists w, initialize (Absent true) = Some w /\ in_step w) /\
  (forall w, (forall f, on_disk f w) -> initialize (fs w) = Some w).
Proof.
  split; [exact initialize_missing|]. split; [|exact initialize_on_disk].
  eexists. split; [vm_compute; reflexivity|].
  intros f. destruct f; eexists; split; vm_compute; reflexivity.
Qed.

(*START*)

(** ** Posting and joining *)

(** X18. Posting.  For an existing group and an existing user (member or
    not), [create_message] answers with a message that has the drawn id and
    timestamp, the given content and author, no likes, no dislikes and no
    color; in the store the group has that message after all the messages
    it had, which are untouched, and the same members; the other groups and
    the users are as before. *)
Theorem create_message_appends
    (w : World) (uuid now group_id content user_id : string)
    (group : GroupDict.t) :
  groups_db w !! group_id = Some group ->
  is_Some (users_db w !! user_id) ->
  let posted := create_message uuid now group_id content user_id w in
  let message := MessageDict.mk uuid content user_id now [] [] None in
  posted.2 = Return message /\
  groups_db posted.1 !! group_id
    = Some (GroupDict.set_messages (GroupDict.messages group ++ [message])
              group) /\
  (forall other, other <> group_id ->
                 groups_db posted.1 !! other = groups_db w !! other) /\
  users_db posted.1 = users_db w.
Proof.
  intros Hg Hu. apply has_key_is_Some in Hu. cbv zeta.
  rewrite create_message_eq, Hg, Hu. cbv zeta. simpl.
  rewrite persist_groups_db, persist_users_db. simpl.
  split; [done|]. split; [by rewrite lookup_alter_eq, Hg|].
  split; [|done]. intros other Hother. by rewrite lookup_alter_ne.
Qed.

Lemma create_message_appends_witness :
  groups_db (create_message "m2" "2024-01-02T00:00:00" "g2" "hello" "u1"
               crowded_world).1 !! "g2"
  = Some (GroupDict.mk "g2" "crowded" "imported" "o1" ["u1"; "u1"; "u7"]
            [MessageDict.mk "m1" "old" "u7" "2023-12-31T23:59:59"
               ["u1"; "u1"] [] None;
             MessageDict.mk "m2" "hello" "u1" "2024-01-02T00:00:00" [] [] None]).
Proof.
  refine (proj1 (proj2 (create_message_appends crowded_world
    "m2" "2024-01-02T00:00:00" "g2" "hello" "u1"
    (GroupDict.mk "g2" "crowded" "imported" "o1" ["u1"; "u1"; "u7"]
       [MessageDict.mk "m1" "old" "u7" "2023-12-31T23:59:59" ["u1"; "u1"] []
          None]) _ _))).
  - vm_compute. reflexivity.
  - exists alice. vm_compute. reflexivity.
Defined.

(** X19. Joining.  For an existing group and an existing user,
    [add_member_to_group] succeeds.  When the user is already in the
    members list the call changes nothing, not even a file; otherwise the
    user id is added after the members the group had, whose order is kept,
    the messages of the group, the other groups and the users are as
    before. *)
Theorem add_member_appends_or_skips
    (w : World) (group_id user_id : string) (group : GroupDict.t) :
  groups_db w !! group_id = Some group ->
  is_Some (users_db w !! user_id) ->
  let joined := add_member_to_group group_id user_id w in
  joined.2 = Return "Member added successfully" /\
  (user_id ∈ GroupDict.members group -> joined.1 = w) /\
  (user_id ∉ GroupDict.members group ->
   groups_db joined.1 !! group_id
     = Some (GroupDict.set_members (GroupDict.members group ++ [user_id])
               group) /\
   (forall other, other <> group_id ->
                  groups_db joined.1 !! other = groups_db w !! other) /\
   users_db joined.1 = users_db w).
Proof.
  intros Hg Hu. apply has_key_is_Some in Hu. cbv zeta.
  rewrite add_member_to_group_eq, Hg, Hu.
  destruct (decide (user_id ∈ GroupDict.members group)) as [Hin|Hni].
  - rewrite (bool_decide_eq_true_2 _ Hin). simpl. by repeat split.
  - rewrite (bool_decide_eq_false_2 _ Hni). simpl.
    rewrite persist_groups_db, persist_users_db. simpl.
    split; [done|]. split; [done|]. intros _.
    split; [by rewrite lookup_alter_eq, Hg|].
    split; [|done]. intros other Hother. by rewrite lookup_alter_ne.
Qed.

Lemma add_member_appends_or_skips_witness :
  (add_member_to_group "g2" "u1" crowded_world).1 = crowded_world.
Proof.
  refine (proj1 (proj2 (add_member_appends_or_skips crowded_world "g2" "u1"
    (GroupDict.mk "g2" "crowded" "imported" "o1" ["u1"; "u1"; "u7"]
       [MessageDict.mk "m1" "old" "u7" "2023-12-31T23:59:59" ["u1"; "u1"] []
          None]) _ _)) _).
  - vm_compute. reflexivity.
  - exists alice. vm_compute. reflexivity.
  - apply list_elem_of_here.
Defined.
